(** * Financial-independence calculator: the calculation engine, the text
      fields and the display

    A shallow embedding of [src/lib/calculations] (the block of
    [FinanceInputForm.tsx] that starts at "Financial calculation utilities"):
    the compounding primitives, the three mode strategies, the month search
    and the timeline generator.  Around it, the pure code of the components:
    the text handling of [InputField], [formatDuration] with the duration
    texts of [ResultsDisplay], the reference line of [TimelineChart], and
    the amounts and the category editing of [EnoughMoneyCalculator].

    Numbers.  A JavaScript [number] is an IEEE 754 binary64 value, which is
    what Rocq's primitive [float] is: [+], [-], [*], [/] and the comparisons
    are the very operations the engine runs.  Quantities that the code only
    ever uses as whole numbers (loop counters, the month probed, the year of
    a sample, and [timeHorizon], which the data model declares as whole years
    and the form's digit-only parser produces) are integers of [Z]; [of_Z]
    is the conversion at the places where the code mixes them with money.

    [Math.pow] and [Math.log] are library functions whose results ECMA-262
    fixes on special values only and leaves "implementation-approximated"
    elsewhere.  The model fixes the special values and takes the approximated
    remainder as a parameter ([pow_approx], [log_approx]): every theorem holds
    for whatever the platform computes there.  [parseFloat], Number::toString
    and [toFixed], whose results the components only pass on, are parameters
    in the same way. *)

From Stdlib Require Import ZArith List Bool Lia Floats.
From Stdlib Require Ascii String DecimalString.
From Equations Require Import Equations.
Import ListNotations.

Set Warnings "-inexact-float".

(** ** JavaScript numbers *)

Module JS.

Local Open Scope float_scope.

(** The number a whole number converts to (round to nearest even, exact below
    2^53). *)
Definition of_Z (z : Z) : float :=
  SF2Prim (binary_normalize prec emax z 0 false).

(** [a >= b] and [a > b]. *)
Definition ge (a b : float) : bool := b <=? a.
Definition gt (a b : float) : bool := b <? a.

(** Truthiness of a number: everything but [0], [-0] and [NaN]. *)
Definition truthy (x : float) : bool := negb (is_zero x || is_nan x).

(** [x || y] on numbers, and on an optional field ([undefined] is falsy). *)
Definition or (x y : float) : float := if truthy x then x else y.

Definition or_undefined (x : option float) (y : float) : float :=
  match x with
  | Some v => or v y
  | None => y
  end.

(** [Number.isFinite]. *)
Definition isFinite (x : float) : bool := is_finite x.

(** The signed mantissa of a finite number [(-1)^s * m * 2^e]. *)
Definition signed (s : bool) (m : positive) : Z :=
  if s then Zneg m else Zpos m.

Definition is_integer (x : float) : bool :=
  match Prim2SF x with
  | S754_zero _ => true
  | S754_finite _ m e => ((0 <=? e) || (Zpos m mod 2 ^ (- e) =? 0))%Z
  | _ => false
  end.

Definition is_odd_integer (x : float) : bool :=
  match Prim2SF x with
  | S754_finite _ m e =>
      if (0 <? e)%Z then false
      else ((Zpos m mod 2 ^ (- e) =? 0) && Z.odd (Zpos m / 2 ^ (- e)))%Z
  | _ => false
  end.

(** The whole number an integral finite number stands for (its floor
    otherwise; 0 on the non-finite ones, which no caller passes). *)
Definition to_integer (x : float) : Z :=
  match Prim2SF x with
  | S754_finite s m e =>
      if (0 <=? e)%Z then (signed s m * 2 ^ e)%Z else (signed s m / 2 ^ (- e))%Z
  | _ => 0%Z
  end.

Definition signed_zero (s : bool) : float := if s then neg_zero else zero.

(** [Math.floor], [Math.ceil]: a number with a non-negative exponent is
    already integral. *)
Definition Math_floor (x : float) : float :=
  match Prim2SF x with
  | S754_finite s m e =>
      if (0 <=? e)%Z then x else of_Z (signed s m / 2 ^ (- e))
  | _ => x
  end.

Definition Math_ceil (x : float) : float :=
  match Prim2SF x with
  | S754_finite s m e =>
      if (0 <=? e)%Z then x
      else
        let z := (- ((- signed s m) / 2 ^ (- e)))%Z in
        if (z =? 0)%Z then signed_zero s else of_Z z
  | _ => x
  end.

(** The whole number nearest to [m * 2^-k] (signed [m]), ties towards
    +infinity: [floor (x + 1/2)], computed exactly. *)
Definition round_half_up (n : Z) (k : Z) : Z :=
  ((2 * n + 2 ^ k) / 2 ^ (k + 1))%Z.

(** [Math.round]. *)
Definition Math_round (x : float) : float :=
  match Prim2SF x with
  | S754_finite s m e =>
      if (0 <=? e)%Z then x
      else
        let z := round_half_up (signed s m) (- e) in
        if (z =? 0)%Z then signed_zero s else of_Z z
  | _ => x
  end.

(** [n % d]: the remainder of the truncated division, exact, with the sign
    of the dividend. *)
Definition rem (n d : float) : float :=
  match Prim2SF n, Prim2SF d with
  | S754_nan, _ | _, S754_nan => nan
  | S754_infinity _, _ => nan
  | _, S754_zero _ => nan
  | _, S754_infinity _ => n
  | S754_zero _, _ => n
  | S754_finite sn mn en, S754_finite _ md ed =>
      let ez := Z.min en ed in
      let r := ((Zpos mn * 2 ^ (en - ez)) mod (Zpos md * 2 ^ (ed - ez)))%Z in
      if (r =? 0)%Z then signed_zero sn
      else SF2Prim (binary_normalize prec emax (if sn then - r else r)%Z ez false)
  end.

Section Library.

(** What the platform's [pow] and [log] return where ECMA-262 asks for an
    approximation only. *)
Variable pow_approx : float -> float -> float.
Variable log_approx : float -> float.

(** [Math.pow], after ECMA-262 Number::exponentiate.  One value is fixed
    beyond it: a base of exactly 1 with a finite exponent gives exactly 1, as
    IEEE 754 and C (Annex F) require of [pow] and every engine returns. *)
Definition Math_pow (base exponent : float) : float :=
  if is_nan exponent then nan
  else if is_zero exponent then 1
  else if is_nan base then nan
  else if is_infinity base then
    if get_sign base then
      if 0 <? exponent
      then (if is_odd_integer exponent then neg_infinity else infinity)
      else (if is_odd_integer exponent then neg_zero else zero)
    else (if 0 <? exponent then infinity else zero)
  else if is_zero base then
    if get_sign base then
      if 0 <? exponent
      then (if is_odd_integer exponent then neg_zero else zero)
      else (if is_odd_integer exponent then neg_infinity else infinity)
    else (if 0 <? exponent then zero else infinity)
  else if is_infinity exponent then
    if 1 <? abs base then (if get_sign exponent then zero else infinity)
    else if abs base =? 1 then nan
    else (if get_sign exponent then infinity else zero)
  else if (base <? 0) && negb (is_integer exponent) then nan
  else if base =? 1 then 1
  else pow_approx base exponent.

(** [Math.log]. *)
Definition Math_log (x : float) : float :=
  if is_nan x then nan
  else if x <? 0 then nan
  else if is_zero x then neg_infinity
  else if x =? 1 then 0
  else if is_infinity x then infinity
  else log_approx x.

End Library.

End JS.

(** ** The data model *)

Record FinancialInputs : Set := {
  currentIncome : float;
  monthlyExpenses : float;
  currentSavings : float;
  currentInvestments : option float;
  targetFINumber : float;
  timeHorizon : Z;
  annualReturn : float;
  inflationRate : float;
  monthlySavings : option float;
  monthlyInvestment : option float;
  savingsInterestRate : option float
}.

Record CalculationResults : Set := {
  requiredMonthlySavings : float;
  futureValueOfCurrentSavings : float;
  inflationAdjustedFINumber : float;
  yearsToFI : float;
  monthsToFI : float;
  totalMonthsToFI : float;
  calculatedFINumber : option float;
  baseFINumber : option float;
  suggestedMonthlySavings : option float;
  suggestedMonthlyInvestment : option float;
  totalFutureSavings : option float;
  totalFutureInvestment : option float;
  targetAtCompletion : option float
}.

(** The mode tag: ['goal-based' | 'time-based' | 'contribution-based']. *)
Inductive Mode : Set := GoalBased | TimeBased | ContributionBased.

(** What [calculateTimelineToFI] returns. *)
Record Timeline : Set := {
  years : float;
  months : float;
  totalMonths : float
}.

(** What [projectPortfolio] returns. *)
Record Projection : Set := {
  total : float;
  target : float;
  savingsFutureValue : float;
  investmentsFutureValue : float
}.

(** One sample of the chart series. *)
Record TimelinePoint : Set := {
  year : Z;
  savings : float;
  chartTarget : float
}.

(** ** The month search

    [let low = 0; let high = 1200; let result = high; let found = false;
     while (low <= high) { mid = floor((low + high) / 2); ... }]
    with the probe abstracted as [reached mid].  The loop runs on whole
    numbers; it ends because [high - low] shrinks at every turn. *)

Equations? searchLoop (reached : Z -> bool) (low high result : Z) (found : bool)
  : Z * bool by wf (Z.to_nat (high - low + 1)) lt :=
  searchLoop reached low high result found with Z_le_gt_dec low high := {
    | left _ =>
        let mid := ((low + high) / 2)%Z in
        if reached mid
        then searchLoop reached low (mid - 1) mid true
        else searchLoop reached (mid + 1) high result found
    | right _ => (result, found) }.
Proof.
  - assert (low <= (low + high) / 2 <= high)%Z
      by (split; [apply Z.div_le_lower_bound | apply Z.div_le_upper_bound]; lia).
    lia.
  - assert (low <= (low + high) / 2 <= high)%Z
      by (split; [apply Z.div_le_lower_bound | apply Z.div_le_upper_bound]; lia).
    lia.
Defined.

(** The search as both callers start it: [(result, found)] after the loop. *)
Definition searchMonths (reached : Z -> bool) : Z * bool :=
  searchLoop reached 0 1200 1200 false.

(** ** The engine *)

Section Engine.

Local Open Scope float_scope.

Variable pow_approx : float -> float -> float.
Variable log_approx : float -> float.

Local Abbreviation Math_pow := (JS.Math_pow pow_approx).
Local Abbreviation Math_log := (JS.Math_log log_approx).

(** FV = PV * (1 + r)^n *)
Definition calculateFutureValue (principal annualRate years : float) : float :=
  principal * Math_pow (1 + annualRate) years.

(** PMT = FV * r / ((1 + r)^n - 1), with the guard for a zero rate. *)
Definition calculateRequiredMonthlySavings
    (targetAmount currentSavings annualRate years : float) : float :=
  let futureValueOfSavings := calculateFutureValue currentSavings annualRate years in
  let amountNeeded := targetAmount - futureValueOfSavings in
  if amountNeeded <=? 0 then 0
  else
    let monthlyRate := annualRate / 12 in
    let totalMonths := years * 12 in
    let denominator := Math_pow (1 + monthlyRate) totalMonths - 1 in
    if denominator =? 0 then amountNeeded / totalMonths
    else (amountNeeded * monthlyRate) / denominator.

(** Adjusted = Amount * (1 + i)^n *)
Definition calculateInflationAdjustedAmount (amount inflationRate years : float) : float :=
  amount * Math_pow (1 + inflationRate) years.

(** The probe of [calculateTimelineToFI]'s search. *)
Definition timelineReached
    (currentSavings monthlySavings targetAmount monthlyRate : float) (mid : Z) : bool :=
  let futureValue :=
    currentSavings * Math_pow (1 + monthlyRate) (JS.of_Z mid) +
    monthlySavings * ((Math_pow (1 + monthlyRate) (JS.of_Z mid) - 1) / monthlyRate) in
  JS.ge futureValue targetAmount.

Definition calculateTimelineToFI
    (currentSavings monthlySavings targetAmount annualRate : float) : Timeline :=
  let monthlyRate := annualRate / 12 in
  if monthlySavings =? 0 then
    if JS.ge currentSavings targetAmount then
      {| years := 0; months := 0; totalMonths := 0 |}
    else if monthlyRate =? 0 then
      {| years := infinity; months := infinity; totalMonths := infinity |}
    else
      let months := Math_log (targetAmount / currentSavings) / Math_log (1 + monthlyRate) in
      {| years := JS.Math_floor (months / 12);
         months := JS.Math_ceil (JS.rem months 12);
         totalMonths := JS.Math_ceil months |}
  else
    let result :=
      fst (searchMonths (timelineReached currentSavings monthlySavings targetAmount monthlyRate)) in
    {| years := JS.of_Z (result / 12);
       months := JS.of_Z (result mod 12);
       totalMonths := JS.of_Z result |}.

(** [(Math.pow(1 + rate, months) - 1) / rate], the annuity factor that both
    fixed-horizon strategies form, without a guard on [rate]. *)
Definition fvFactor (rate months : float) : float :=
  (Math_pow (1 + rate) months - 1) / rate.

(** Goal-based mode: the body of [calculateFinancialIndependence] below the
    dispatch.  The five [let] variables that the [if (amountNeeded > 0)]
    block updates are returned together by the conditional. *)
Definition calculateGoalBased (inputs : FinancialInputs) : CalculationResults :=
  let futureValueOfCash :=
    calculateFutureValue (currentSavings inputs)
      (JS.or_undefined (savingsInterestRate inputs) 0) (JS.of_Z (timeHorizon inputs)) in
  let futureValueOfInvestments :=
    calculateFutureValue (JS.or_undefined (currentInvestments inputs) 0)
      (annualReturn inputs) (JS.of_Z (timeHorizon inputs)) in
  let futureValueOfCurrentSavings := futureValueOfCash + futureValueOfInvestments in
  let inflationAdjustedFINumber := targetFINumber inputs in
  let amountNeeded := inflationAdjustedFINumber - futureValueOfCurrentSavings in
  let '(requiredMonthlyTotal, suggestedMonthlySavings, suggestedMonthlyInvestment,
        totalFutureSavings, totalFutureInvestment) :=
    if JS.gt amountNeeded 0 then
      let savingsRate := JS.or_undefined (savingsInterestRate inputs) 0 / 12 in
      let investmentRate := annualReturn inputs / 12 in
      let months := JS.of_Z (timeHorizon inputs) * 12 in
      let fvFactorSavings := fvFactor savingsRate months in
      let fvFactorInvestment := fvFactor investmentRate months in
      let combinedFactor := (0.3 * fvFactorSavings) + (0.7 * fvFactorInvestment) in
      let requiredMonthlyTotal := amountNeeded / combinedFactor in
      let suggestedMonthlySavings := requiredMonthlyTotal * 0.3 in
      let suggestedMonthlyInvestment := requiredMonthlyTotal * 0.7 in
      (requiredMonthlyTotal, suggestedMonthlySavings, suggestedMonthlyInvestment,
       futureValueOfCash + suggestedMonthlySavings * fvFactorSavings,
       futureValueOfInvestments + suggestedMonthlyInvestment * fvFactorInvestment)
    else (0, 0, 0, futureValueOfCash, futureValueOfInvestments) in
  let yearsToFI := if amountNeeded <=? 0 then 0 else JS.of_Z (timeHorizon inputs) in
  {| requiredMonthlySavings := requiredMonthlyTotal;
     futureValueOfCurrentSavings := futureValueOfCurrentSavings;
     inflationAdjustedFINumber := inflationAdjustedFINumber;
     yearsToFI := yearsToFI;
     monthsToFI := 0;
     totalMonthsToFI := yearsToFI * 12;
     calculatedFINumber := None;
     baseFINumber := None;
     suggestedMonthlySavings := Some suggestedMonthlySavings;
     suggestedMonthlyInvestment := Some suggestedMonthlyInvestment;
     totalFutureSavings := Some totalFutureSavings;
     totalFutureInvestment := Some totalFutureInvestment;
     targetAtCompletion := None |}.

(** Time-based mode. *)
Definition calculateTimeBasedStrategy (inputs : FinancialInputs) : CalculationResults :=
  let baseFINumber := monthlyExpenses inputs * 12 * 25 in
  let futureFINumber :=
    calculateInflationAdjustedAmount baseFINumber (inflationRate inputs)
      (JS.of_Z (timeHorizon inputs)) in
  let futureValueOfCash :=
    calculateFutureValue (currentSavings inputs)
      (JS.or_undefined (savingsInterestRate inputs) 0) (JS.of_Z (timeHorizon inputs)) in
  let futureValueOfInvestments :=
    calculateFutureValue (JS.or_undefined (currentInvestments inputs) 0)
      (annualReturn inputs) (JS.of_Z (timeHorizon inputs)) in
  let futureValueOfCurrentAssets := futureValueOfCash + futureValueOfInvestments in
  let gap := futureFINumber - futureValueOfCurrentAssets in
  let '(requiredMonthlySavings, totalFutureSavings, totalFutureInvestment) :=
    if JS.gt gap 0 then
      let savingsRate := JS.or_undefined (savingsInterestRate inputs) 0 / 12 in
      let investmentRate := annualReturn inputs / 12 in
      let months := JS.of_Z (timeHorizon inputs) * 12 in
      let fvFactorSavings := fvFactor savingsRate months in
      let fvFactorInvestment := fvFactor investmentRate months in
      let combinedFactor := (0.3 * fvFactorSavings) + (0.7 * fvFactorInvestment) in
      let requiredMonthlySavings := gap / combinedFactor in
      (requiredMonthlySavings,
       futureValueOfCash + (requiredMonthlySavings * 0.3) * fvFactorSavings,
       futureValueOfInvestments + (requiredMonthlySavings * 0.7) * fvFactorInvestment)
    else (0, futureValueOfCash, futureValueOfInvestments) in
  let suggestedMonthlyInvestment := requiredMonthlySavings * 0.7 in
  let suggestedMonthlySavings := requiredMonthlySavings * 0.3 in
  {| requiredMonthlySavings := requiredMonthlySavings;
     futureValueOfCurrentSavings := futureValueOfCurrentAssets;
     inflationAdjustedFINumber := futureFINumber;
     yearsToFI := JS.of_Z (timeHorizon inputs);
     monthsToFI := 0;
     totalMonthsToFI := JS.of_Z (timeHorizon inputs) * 12;
     calculatedFINumber := Some futureFINumber;
     baseFINumber := Some baseFINumber;
     suggestedMonthlySavings := Some suggestedMonthlySavings;
     suggestedMonthlyInvestment := Some suggestedMonthlyInvestment;
     totalFutureSavings := Some totalFutureSavings;
     totalFutureInvestment := Some totalFutureInvestment;
     targetAtCompletion := None |}.

(** Contribution-based mode: the baseline target, the probe and the strategy. *)
Definition baseTarget (inputs : FinancialInputs) : float :=
  JS.or (targetFINumber inputs) (monthlyExpenses inputs * 12 * 25).

Definition projectPortfolio (inputs : FinancialInputs) (months : Z) : Projection :=
  let monthlySavingsContribution := JS.or_undefined (monthlySavings inputs) 0 in
  let monthlyInvestmentContribution := JS.or_undefined (monthlyInvestment inputs) 0 in
  let monthlySavingsRate := JS.or_undefined (savingsInterestRate inputs) 0 / 12 in
  let monthlyInvestmentRate := annualReturn inputs / 12 in
  let monthlyInflationRate := Math_pow (1 + inflationRate inputs) (1 / 12) - 1 in
  let targetAtMonth :=
    baseTarget inputs * Math_pow (1 + monthlyInflationRate) (JS.of_Z months) in
  let savingsFutureValue :=
    if monthlySavingsRate =? 0
    then currentSavings inputs + monthlySavingsContribution * JS.of_Z months
    else
      currentSavings inputs * Math_pow (1 + monthlySavingsRate) (JS.of_Z months) +
      monthlySavingsContribution *
        ((Math_pow (1 + monthlySavingsRate) (JS.of_Z months) - 1) / monthlySavingsRate) in
  let investmentsFutureValue :=
    if monthlyInvestmentRate =? 0
    then JS.or_undefined (currentInvestments inputs) 0 +
         monthlyInvestmentContribution * JS.of_Z months
    else
      JS.or_undefined (currentInvestments inputs) 0 *
        Math_pow (1 + monthlyInvestmentRate) (JS.of_Z months) +
      monthlyInvestmentContribution *
        ((Math_pow (1 + monthlyInvestmentRate) (JS.of_Z months) - 1) / monthlyInvestmentRate) in
  {| total := savingsFutureValue + investmentsFutureValue;
     target := targetAtMonth;
     savingsFutureValue := savingsFutureValue;
     investmentsFutureValue := investmentsFutureValue |}.

(** [projection.total >= projection.target] at a month. *)
Definition targetReached (inputs : FinancialInputs) (months : Z) : bool :=
  JS.ge (total (projectPortfolio inputs months)) (target (projectPortfolio inputs months)).

Definition calculateContributionTimeline (inputs : FinancialInputs) : CalculationResults :=
  let monthlySavingsContribution := JS.or_undefined (monthlySavings inputs) 0 in
  let monthlyInvestmentContribution := JS.or_undefined (monthlyInvestment inputs) 0 in
  let startingPosition := projectPortfolio inputs 0 in
  if JS.ge (total startingPosition) (target startingPosition) then
    {| requiredMonthlySavings := monthlySavingsContribution + monthlyInvestmentContribution;
       futureValueOfCurrentSavings := total startingPosition;
       inflationAdjustedFINumber := target startingPosition;
       yearsToFI := 0;
       monthsToFI := 0;
       totalMonthsToFI := 0;
       calculatedFINumber := None;
       baseFINumber := Some (baseTarget inputs);
       suggestedMonthlySavings := Some monthlySavingsContribution;
       suggestedMonthlyInvestment := Some monthlyInvestmentContribution;
       totalFutureSavings := Some (savingsFutureValue startingPosition);
       totalFutureInvestment := Some (investmentsFutureValue startingPosition);
       targetAtCompletion := Some (target startingPosition) |}
  else
    let '(result, found) := searchMonths (targetReached inputs) in
    let completion := projectPortfolio inputs result in
    let yearsToFI := JS.of_Z (result / 12) in
    let monthsToFI := JS.of_Z (result mod 12) in
    {| requiredMonthlySavings := monthlySavingsContribution + monthlyInvestmentContribution;
       futureValueOfCurrentSavings := total completion;
       inflationAdjustedFINumber := target completion;
       yearsToFI := if found then yearsToFI else infinity;
       monthsToFI := if found then monthsToFI else 0;
       totalMonthsToFI := if found then JS.of_Z result else infinity;
       calculatedFINumber := None;
       baseFINumber := Some (baseTarget inputs);
       suggestedMonthlySavings := Some monthlySavingsContribution;
       suggestedMonthlyInvestment := Some monthlyInvestmentContribution;
       totalFutureSavings := Some (savingsFutureValue completion);
       totalFutureInvestment := Some (investmentsFutureValue completion);
       targetAtCompletion := Some (target completion) |}.

(** The entry point: one strategy per mode. *)
Definition calculateFinancialIndependence
    (inputs : FinancialInputs) (mode : Mode) : CalculationResults :=
  match mode with
  | TimeBased => calculateTimeBasedStrategy inputs
  | ContributionBased => calculateContributionTimeline inputs
  | GoalBased => calculateGoalBased inputs
  end.

(** ** The timeline generator *)

(** The inner loop: [count] monthly steps of both pools. *)
Fixpoint advanceMonths (count : nat)
    (monthlySavingsRate monthlySavingsContribution
     monthlyInvestmentRate monthlyInvestmentContribution : float)
    (savedValue investedValue : float) : float * float :=
  match count with
  | O => (savedValue, investedValue)
  | S count' =>
      advanceMonths count'
        monthlySavingsRate monthlySavingsContribution
        monthlyInvestmentRate monthlyInvestmentContribution
        (savedValue * (1 + monthlySavingsRate) + monthlySavingsContribution)
        (investedValue * (1 + monthlyInvestmentRate) + monthlyInvestmentContribution)
  end.

(** The outer loop, [for (let year = 0; year <= yearsToProject; year++)], with
    the number of turns left as the structural argument. *)
Fixpoint timelineLoop (turns : nat) (year : Z)
    (targetAmount inflationRate : float)
    (monthlySavingsRate monthlySavingsContribution
     monthlyInvestmentRate monthlyInvestmentContribution : float)
    (savedValue investedValue : float) : list TimelinePoint :=
  match turns with
  | O => []
  | S turns' =>
      let point :=
        {| year := year;
           savings := JS.Math_round (investedValue + savedValue);
           chartTarget :=
             calculateInflationAdjustedAmount targetAmount inflationRate (JS.of_Z year) |} in
      let '(savedValue', investedValue') :=
        advanceMonths 12
          monthlySavingsRate monthlySavingsContribution
          monthlyInvestmentRate monthlyInvestmentContribution
          savedValue investedValue in
      point ::
      timelineLoop turns' (year + 1)%Z targetAmount inflationRate
        monthlySavingsRate monthlySavingsContribution
        monthlyInvestmentRate monthlyInvestmentContribution
        savedValue' investedValue'
  end.

(** [results && Number.isFinite(results.yearsToFI) ? Math.ceil(results.yearsToFI)
    : inputs.timeHorizon], as the whole number it stands for. *)
Definition projectedYearsFromResults
    (inputs : FinancialInputs) (results : option CalculationResults) : Z :=
  match results with
  | Some r =>
      if JS.isFinite (yearsToFI r)
      then JS.to_integer (JS.Math_ceil (yearsToFI r))
      else timeHorizon inputs
  | None => timeHorizon inputs
  end.

(** The generator, statement by statement; a variable that is assigned again
    is bound again. *)
Definition generateTimelineData
    (inputs : FinancialInputs) (mode : Mode) (results : option CalculationResults)
    : list TimelinePoint :=
  let monthlyInvestmentRate := annualReturn inputs / 12 in
  let monthlySavingsRate := JS.or_undefined (savingsInterestRate inputs) 0 / 12 in
  let monthlySavingsContribution := 0 in
  let monthlyInvestmentContribution := 0 in
  let targetAmount := targetFINumber inputs in
  (* if (results) { ... } *)
  let '(monthlySavingsContribution, monthlyInvestmentContribution, targetAmount) :=
    match results with
    | Some r =>
        (JS.or_undefined (suggestedMonthlySavings r) 0,
         JS.or_undefined (suggestedMonthlyInvestment r) 0,
         match mode with
         | TimeBased =>
             JS.or_undefined (baseFINumber r) (monthlyExpenses inputs * 12 * 25)
         | _ => targetAmount
         end)
    | None => (monthlySavingsContribution, monthlyInvestmentContribution, targetAmount)
    end in
  let investedValue := JS.or_undefined (currentInvestments inputs) 0 in
  let savedValue := currentSavings inputs in
  let yearsToProject :=
    match mode, results with
    | ContributionBased, Some _ =>
        Z.max (projectedYearsFromResults inputs results) (timeHorizon inputs)
    | _, _ => timeHorizon inputs
    end in
  (* if (mode === 'contribution-based') { ... } *)
  let '(monthlySavingsContribution, monthlyInvestmentContribution, targetAmount) :=
    match mode with
    | ContributionBased =>
        (JS.or_undefined (monthlySavings inputs) 0,
         JS.or_undefined (monthlyInvestment inputs) 0,
         JS.or_undefined
           match results with Some r => baseFINumber r | None => None end
           (targetFINumber inputs))
    | _ => (monthlySavingsContribution, monthlyInvestmentContribution, targetAmount)
    end in
  (* if (mode === 'time-based' && results?.baseFINumber) { ... } *)
  let targetAmount :=
    match mode, results with
    | TimeBased, Some r =>
        match baseFINumber r with
        | Some b => if JS.truthy b then b else targetAmount
        | None => targetAmount
        end
    | _, _ => targetAmount
    end in
  timelineLoop (Z.to_nat (yearsToProject + 1)) 0%Z
    targetAmount (inflationRate inputs)
    monthlySavingsRate monthlySavingsContribution
    monthlyInvestmentRate monthlyInvestmentContribution
    savedValue investedValue.

End Engine.

(** ** Inputs used in the examples

    Each example is picked so that [Math.pow] only meets arguments whose
    value is fixed (a base of 1, an exponent of 0): the stand-in below for
    the approximated part is never consulted by them. *)

Definition unspecified_pow : float -> float -> float := fun _ _ => nan.

Definition exampleInputs (savings target : float) (horizon : Z)
    (monthly : option float) : FinancialInputs :=
  {| currentIncome := 0;
     monthlyExpenses := 0;
     currentSavings := savings;
     currentInvestments := Some 0%float;
     targetFINumber := target;
     timeHorizon := horizon;
     annualReturn := 0;
     inflationRate := 0;
     monthlySavings := monthly;
     monthlyInvestment := None;
     savingsInterestRate := Some 0%float |}.

(** Nothing saved, every rate 0, a target of 1200 in one year. *)
Definition zeroRateInputs : FinancialInputs := exampleInputs 0 1200 1 None.

(** One unit saved a month towards a target of 13: reached after 13 months. *)
Definition thirteenMonthInputs : FinancialInputs := exampleInputs 0 13 1 (Some 1%float).

(** Nothing saved and nothing contributed: a target of 13 is never reached. *)
Definition idleInputs : FinancialInputs := exampleInputs 0 13 1 None.

(** Savings of 20 against a target of 13: met from the start. *)
Definition fundedInputs : FinancialInputs := exampleInputs 20 13 1 None.

(** ** Notions used to state the properties *)

(** [r] is the whole number nearest to [x], the upper one when [x] lies half
    way; a number without fractional bits, an infinity or a NaN is kept. *)
Definition nearest_whole (x r : float) : Prop :=
  match Prim2SF x with
  | S754_finite s m e =>
      if (0 <=? e)%Z then r = x
      else
        exists z : Z,
          ((2 * z - 1) * 2 ^ (- e) <= 2 * JS.signed s m < (2 * z + 1) * 2 ^ (- e))%Z /\
          r = (if (z =? 0)%Z then JS.signed_zero s else JS.of_Z z)
  | _ => r = x
  end.

(** The success predicate of a probe [months -> (totalAssets, targetAtMonths)]. *)
Definition probe_reached (probe : Z -> float * float) (months : Z) : bool :=
  JS.ge (fst (probe months)) (snd (probe months)).

(** What the assignments of the generator amount to: the horizon of the
    chart in whole years, the two monthly contributions, and the target that
    the chart starts from. *)
Definition yearsToProject
    (inputs : FinancialInputs) (mode : Mode) (results : option CalculationResults) : Z :=
  match mode, results with
  | ContributionBased, Some _ =>
      Z.max (projectedYearsFromResults inputs results) (timeHorizon inputs)
  | _, _ => timeHorizon inputs
  end.

Definition timelineContributions
    (inputs : FinancialInputs) (mode : Mode) (results : option CalculationResults)
    : float * float :=
  match mode, results with
  | ContributionBased, _ =>
      (JS.or_undefined (monthlySavings inputs) 0%float,
       JS.or_undefined (monthlyInvestment inputs) 0%float)
  | _, Some r =>
      (JS.or_undefined (suggestedMonthlySavings r) 0%float,
       JS.or_undefined (suggestedMonthlyInvestment r) 0%float)
  | _, None => (0%float, 0%float)
  end.

Definition timelineTarget
    (inputs : FinancialInputs) (mode : Mode) (results : option CalculationResults)
    : float :=
  match mode, results with
  | GoalBased, _ => targetFINumber inputs
  | TimeBased, Some r =>
      JS.or_undefined (baseFINumber r) (monthlyExpenses inputs * 12 * 25)%float
  | TimeBased, None => targetFINumber inputs
  | ContributionBased, Some r => JS.or_undefined (baseFINumber r) (targetFINumber inputs)
  | ContributionBased, None => targetFINumber inputs
  end.

(** The years of a chart that runs to [horizon]: 0, 1, ..., [horizon]. *)
Definition chartYears (horizon : Z) : list Z :=
  map Z.of_nat (seq 0 (Z.to_nat (horizon + 1))).

(** The two pools ([saved], [invested]) that the generator holds after
    [elapsed] monthly steps. *)
Definition poolsAfter
    (inputs : FinancialInputs) (mode : Mode) (results : option CalculationResults)
    (elapsed : nat) : float * float :=
  advanceMonths elapsed
    (JS.or_undefined (savingsInterestRate inputs) 0 / 12)%float
    (fst (timelineContributions inputs mode results))
    (annualReturn inputs / 12)%float
    (snd (timelineContributions inputs mode results))
    (currentSavings inputs)
    (JS.or_undefined (currentInvestments inputs) 0).

(** * The text fields and the display

    ** Strings

    A JavaScript string is the sequence of its code units.  The functions of
    the form fields tell the digits, the ASCII letters, [_], [.] and [,] from
    everything else and never look inside a unit, so a unit is a byte here:
    a character outside ASCII is one or more units that are neither digits
    nor word characters, in this encoding as in UTF-16. *)

Module Text.

Import Ascii String.

Definition text : Set := list ascii.

(** A string literal of the source. *)
Definition lit (s : string) : text := list_ascii_of_string s.

Arguments lit s%_string.

Definition dot : ascii := ".".
Definition comma : ascii := ",".

(** [a === b] on strings. *)
Definition eqb (a b : text) : bool :=
  if list_eq_dec ascii_dec a b then true else false.

(** The character classes [\d] and [\w] of a regular expression. *)
Definition isDigit (c : ascii) : bool :=
  ((48 <=? N_of_ascii c) && (N_of_ascii c <=? 57))%N.

Definition isWordChar (c : ascii) : bool :=
  isDigit c
  || ((65 <=? N_of_ascii c) && (N_of_ascii c <=? 90))%N
  || ((97 <=? N_of_ascii c) && (N_of_ascii c <=? 122))%N
  || (N_of_ascii c =? 95)%N.

(** [s.replace(/\D/g, '')], [s.replace(/c/g, '')] and [s.replace(/c/g, 'd')]
    for single characters [c], [d]. *)
Definition removeNonDigits (s : text) : text := filter isDigit s.

Definition removeAll (c : ascii) (s : text) : text :=
  filter (fun x => negb (Ascii.eqb x c)) s.

Definition replaceAll (c d : ascii) (s : text) : text :=
  map (fun x => if Ascii.eqb x c then d else x) s.

(** The lookahead [(?=(\d{3})+(?!\d))] at the head of [s]: a group of three
    digits, then either more groups that end in the same way, or no digit. *)
Fixpoint groupsOfThreeAhead (s : text) : bool :=
  match s with
  | a :: b :: c :: rest =>
      isDigit a && isDigit b && isDigit c &&
      (groupsOfThreeAhead rest ||
       negb match rest with d :: _ => isDigit d | [] => false end)
  | _ => false
  end.

(** [\B] between two neighbours ([None] at either end of the string): not a
    word boundary, that is, both are word characters or neither is. *)
Definition notWordBoundary (prev next : option ascii) : bool :=
  Bool.eqb
    match prev with Some c => isWordChar c | None => false end
    match next with Some c => isWordChar c | None => false end.

(** [s.replace(/\B(?=(\d{3})+(?!\d))/g, '.')].  The pattern matches the empty
    string, at most once at each position; every match becomes a ['.'].
    [prev] is the unit before [s]. *)
Fixpoint insertDotsFrom (prev : option ascii) (s : text) : text :=
  (if notWordBoundary prev (hd_error s) && groupsOfThreeAhead s then [dot] else []) ++
  match s with
  | [] => []
  | c :: s' => c :: insertDotsFrom (Some c) s'
  end.

Definition insertDots (s : text) : text := insertDotsFrom None s.

(** [s.split('.')], as the first part and the parts after it (there is
    always a first part), and [parts.join(sep)]. *)
Fixpoint split (sep : ascii) (s : text) : text * list text :=
  match s with
  | [] => ([], [])
  | c :: s' =>
      let '(first, others) := split sep s' in
      if Ascii.eqb c sep then ([], first :: others) else (c :: first, others)
  end.

Fixpoint join (sep : text) (parts : list text) : text :=
  match parts with
  | [] => []
  | [part] => part
  | part :: others => part ++ sep ++ join sep others
  end.

(** [formatNumberWithDots] of the expenses calculator, on the text of its
    argument. *)
Definition formatNumberWithDots (value : text) : text :=
  let digits := removeNonDigits value in
  insertDots digits.

(** [formatWithCommas] of [InputField]. *)
Definition formatWithCommas (num : text) : text :=
  let '(first, others) := split dot num in
  join [comma] (insertDots first :: others).

(** The [type] of an [InputField]. *)
Inductive FieldType : Set := Currency | Percentage | Number.

Section Parsing.

(** [parseFloat], as the platform has it. *)
Variable parseFloat : text -> float.

(** [handleChange] of [InputField] on the text of the event: the text put on
    display and the number handed to [onChange]. *)
Definition handleChange (type : FieldType) (value : text) : text * float :=
  let rawValue :=
    replaceAll comma dot (filter (fun c => isDigit c || Ascii.eqb c comma) value) in
  let numericValue := removeAll dot rawValue in
  match type with
  | Percentage =>
      let numValue :=
        JS.or (parseFloat (replaceAll comma dot (removeAll dot rawValue))) 0 in
      (rawValue, (numValue / 100)%float)
  | _ =>
      let numValue := JS.or (parseFloat numericValue) 0 in
      (formatWithCommas numericValue, numValue)
  end.

(** [Number.prototype.toFixed(1)] and Number::toString, as the platform has
    them. *)
Variable toFixed1 : float -> text.
Variable toString : float -> text.

(** [handleBlur] of [InputField] on the text on display: the text put on
    display in its place. *)
Definition handleBlur (type : FieldType) (displayValue : text) : text :=
  let cleanValue := replaceAll comma dot (removeAll dot displayValue) in
  let numValue := JS.or (parseFloat cleanValue) 0 in
  match type with
  | Percentage => toFixed1 numValue
  | _ => formatWithCommas (toString (JS.Math_round numValue))
  end.

End Parsing.

End Text.

(** ** The expenses calculator ([EnoughMoneyCalculator]) *)

Module EnoughMoney.

Local Open Scope float_scope.

Record Category : Set := {
  key : Text.text;
  label : Text.text;
  value : float
}.

Record Results : Set := {
  baseline : float;
  enough : float;
  safe : float
}.

(** [Math.max] of two numbers: a NaN wins, and [+0] is larger than [-0]. *)
Definition Math_max (a b : float) : float :=
  if is_nan a || is_nan b then nan
  else if a <? b then b
  else if b <? a then a
  else if get_sign a then b else a.

(** The body of the [useMemo] that computes the three amounts. *)
Definition results (categories : list Category) (bufferPercent multiplier : float)
    : Results :=
  let baseline :=
    fold_left
      (fun sum cat => sum + (if JS.isFinite (value cat) then value cat else 0))
      categories 0 in
  let enough := baseline * (1 + Math_max 0 bufferPercent / 100) in
  let safe := enough * Math_max 1 multiplier in
  {| baseline := baseline; enough := enough; safe := safe |}.

Section Parsing.

Variable parseFloat : Text.text -> float.

(** [handleCategoryChange]: the two state updates, applied to the state they
    are given.  [categoryInputs] is the object of display texts by key. *)
Definition handleCategoryChange (key0 rawValue : Text.text)
    (categoryInputs : Text.text -> option Text.text) (categories : list Category)
    : (Text.text -> option Text.text) * list Category :=
  let cleaned := Text.removeNonDigits rawValue in
  let formatted := Text.formatNumberWithDots cleaned in
  let numericValue := JS.or (parseFloat cleaned) 0 in
  (fun k => if Text.eqb k key0 then Some formatted else categoryInputs k,
   map (fun cat =>
          if Text.eqb (key cat) key0
          then {| key := key cat; label := label cat; value := numericValue |}
          else cat)
       categories).

End Parsing.

End EnoughMoney.

(** ** The results card and the chart ([formatDuration], [ResultsDisplay],
    [TimelineChart]) *)

Module Display.

Import String.

Local Open Scope float_scope.

Definition notReached : Text.text := Text.lit "Chưa đạt được trong phạm vi tính toán".
Definition achieved : Text.text := Text.lit "Đã đạt được!".

Section Show.

(** The text of a number in a template literal (Number::toString). *)
Variable toString : float -> Text.text.

Definition formatDuration (years months : float) : Text.text :=
  if negb (JS.isFinite years) || negb (JS.isFinite months) then notReached
  else
    let parts : list Text.text := [] in
    let parts :=
      if JS.gt years 0 then parts ++ [toString years ++ Text.lit " năm"] else parts in
    let parts :=
      if JS.gt months 0 then parts ++ [toString months ++ Text.lit " tháng"] else parts in
    match parts with
    | [] => achieved
    | _ => Text.join (Text.lit " và ") parts
    end.

(** [timelineText] and [yearsLabelText] of [ResultsDisplay]. *)
Definition timelineText (results : CalculationResults) : Text.text :=
  let isAlreadyFI := totalMonthsToFI results =? 0 in
  if isAlreadyFI then achieved
  else formatDuration (yearsToFI results) (monthsToFI results).

Definition yearsLabelText (results : CalculationResults) : Text.text :=
  if JS.isFinite (yearsToFI results) then toString (yearsToFI results)
  else Text.lit "N/A".

End Show.

(** [targetValue] of [TimelineChart], the height of the reference line. *)
Definition targetValue
    (inputs : FinancialInputs) (mode : Mode) (results : option CalculationResults)
    : float :=
  match mode with
  | TimeBased =>
      match results with
      | Some r =>
          match calculatedFINumber r with
          | Some c => if JS.truthy c then c else monthlyExpenses inputs * 12 * 25
          | None => monthlyExpenses inputs * 12 * 25
          end
      | None => monthlyExpenses inputs * 12 * 25
      end
  | _ => targetFINumber inputs
  end.

End Display.

(** ** The month search on an arbitrary probe *)

Section SearchAnyProbe.

Local Open Scope Z_scope.

Variable reached : Z -> bool.
Variables low0 high0 result0 : Z.

(** What holds at the head of every turn without any assumption on the
    probe: the month below [low] was probed and failed, a recorded hit was
    probed and succeeded. *)
Definition probe_invariant (low high result : Z) (found : bool) : Prop :=
  low0 <= low /\ high <= high0 /\ low <= high + 1 /\
  (low = low0 \/ reached (low - 1) = false) /\
  (if found
   then result = high + 1 /\ result <= high0 /\ reached result = true
   else high = high0 /\ result = result0).

Definition probe_outcome (out : Z * bool) : Prop :=
  if snd out
  then low0 <= fst out <= high0 /\ reached (fst out) = true /\
       (fst out = low0 \/ reached (fst out - 1) = false)
  else fst out = result0 /\ (low0 <= high0 -> reached high0 = false).

End SearchAnyProbe.

(** ** Notions used to state the properties of the text fields *)

(** Groups of three from the units: the thousands grouping of a digit string,
    said without a regular expression.  [groupsFromUnits] reads the digits
    backwards. *)
Fixpoint groupsFromUnits (s : Text.text) : Text.text :=
  match s with
  | a :: b :: c :: (_ :: _) as rest => a :: b :: c :: Text.dot :: groupsFromUnits rest
  | _ => s
  end.

Definition thousandsGrouped (digits : Text.text) : Text.text :=
  rev (groupsFromUnits (rev digits)).

(** The same separators placed from the left, by counting the digits that
    follow each digit. *)
Fixpoint dotsByLength (s : Text.text) : Text.text :=
  match s with
  | [] => []
  | c :: s' =>
      c :: (if ((0 <? length s') && (length s' mod 3 =? 0))%nat
            then Text.dot :: dotsByLength s'
            else dotsByLength s')
  end.

(** The part of a string before its first ['.'], and the rest from that
    ['.'] on. *)
Fixpoint integerPart (s : Text.text) : Text.text :=
  match s with
  | [] => []
  | c :: s' => if Ascii.eqb c Text.dot then [] else c :: integerPart s'
  end.

Fixpoint fromDecimalPoint (s : Text.text) : Text.text :=
  match s with
  | [] => []
  | c :: s' => if Ascii.eqb c Text.dot then s else fromDecimalPoint s'
  end.

(** ** Further inputs used in the examples *)

(** Expenses of 1 a month (a baseline of 300) against savings of 500, over
    two years at rates of 0. *)
Definition spendingInputs : FinancialInputs :=
  {| currentIncome := 0;
     monthlyExpenses := 1;
     currentSavings := 500;
     currentInvestments := None;
     targetFINumber := 0;
     timeHorizon := 2;
     annualReturn := 0;
     inflationRate := 0;
     monthlySavings := None;
     monthlyInvestment := None;
     savingsInterestRate := None |}.

(** Expenses of 1 a month (a time-based baseline of 300) beside a stated
    target of 13, over one year at rates of 0, with nothing saved. *)
Definition expensesBesideTargetInputs : FinancialInputs :=
  {| currentIncome := 0;
     monthlyExpenses := 1;
     currentSavings := 0;
     currentInvestments := None;
     targetFINumber := 13;
     timeHorizon := 1;
     annualReturn := 0;
     inflationRate := 0;
     monthlySavings := None;
     monthlyInvestment := None;
     savingsInterestRate := None |}.

(** A shortfall of 50 with a horizon of 0 years, at positive rates. *)
Definition zeroHorizonInputs : FinancialInputs :=
  {| currentIncome := 0;
     monthlyExpenses := 0;
     currentSavings := 40;
     currentInvestments := Some 10%float;
     targetFINumber := 100;
     timeHorizon := 0;
     annualReturn := 0.07;
     inflationRate := 0.03;
     monthlySavings := None;
     monthlyInvestment := None;
     savingsInterestRate := Some 0.04%float |}.

(** Stand-ins for the platform functions in the examples: a [log] and a
    [parseFloat] that are never consulted, and the text of a whole number
    that is not negative, which is all that the examples print. *)
Definition unspecified_log : float -> float := fun _ => nan.
Definition unspecified_parse : Text.text -> float := fun _ => nan.

Definition wholeNumberText (x : float) : Text.text :=
  Text.lit (DecimalString.NilZero.string_of_int (Z.to_int (JS.to_integer x))).

(** * Facts about binary64 arithmetic

    The primitive operations are specified by [SpecFloat] (Stdlib's
    [FloatAxioms]); the facts below are derived from that specification. *)

Module FloatFacts.

Local Open Scope Z_scope.

(** A mantissa of [d] binary digits lies in [2^(d-1), 2^d). *)
Lemma digits2_pos_bounds (m : positive) :
  2 ^ (Zpos (digits2_pos m) - 1) <= Zpos m < 2 ^ Zpos (digits2_pos m).
Proof.
  induction m as [m IH | m IH |]; cbn [digits2_pos].
  - rewrite Pos2Z.inj_succ.
    replace (Z.succ (Zpos (digits2_pos m)) - 1) with (Z.succ (Zpos (digits2_pos m) - 1)) by lia.
    rewrite !Z.pow_succ_r by lia. lia.
  - rewrite Pos2Z.inj_succ.
    replace (Z.succ (Zpos (digits2_pos m)) - 1) with (Z.succ (Zpos (digits2_pos m) - 1)) by lia.
    rewrite !Z.pow_succ_r by lia. lia.
  - cbn. lia.
Qed.

(** The rounding shifts divide the mantissa by a power of two. *)
Lemma shr_1_m (r : shr_record) :
  0 <= shr_m r -> shr_m (shr_1 r) = shr_m r / 2.
Proof.
  destruct r as [m rb sb]; cbn [shr_m]; intros Hm.
  destruct m as [| p | p]; [reflexivity | | lia].
  destruct p as [p | p |]; cbn [shr_1 shr_m].
  - rewrite Pos2Z.inj_xI. apply Z.div_unique with (r := 1); lia.
  - rewrite Pos2Z.inj_xO. apply Z.div_unique with (r := 0); lia.
  - reflexivity.
Qed.

Lemma iter_shr_1_m (p : positive) :
  forall r, 0 <= shr_m r ->
    shr_m (iter_pos shr_1 p r) = shr_m r / 2 ^ Zpos p.
Proof.
  induction p as [p IH | p IH |]; intros r Hr; cbn [iter_pos].
  - assert (H1 : 0 <= shr_m (shr_1 r))
      by (rewrite shr_1_m by assumption; apply Z.div_pos; lia).
    assert (H2 : 0 <= shr_m (iter_pos shr_1 p (shr_1 r)))
      by (rewrite IH by assumption; apply Z.div_pos; lia).
    rewrite IH, IH, shr_1_m by assumption.
    rewrite !Z.div_div by lia.
    f_equal. rewrite <- Z.pow_add_r, <- Z.pow_succ_r by lia. f_equal. lia.
  - assert (H2 : 0 <= shr_m (iter_pos shr_1 p r))
      by (rewrite IH by assumption; apply Z.div_pos; lia).
    rewrite IH, IH by assumption.
    rewrite !Z.div_div by lia.
    f_equal. rewrite <- Z.pow_add_r by lia. f_equal. lia.
  - rewrite shr_1_m by assumption. reflexivity.
Qed.

Local Abbreviation emin := (SpecFloat.emin prec emax).
Local Abbreviation fexp := (SpecFloat.fexp prec emax).

(** Shifting a positive mantissa right to its canonical exponent keeps it
    positive as long as the exponent is at least [emin] (gradual underflow). *)
Lemma shr_fexp_pos (m : positive) (e : Z) (l : location) :
  emin <= e ->
  0 < shr_m (fst (shr_fexp prec emax (Zpos m) e l)) /\
  emin <= snd (shr_fexp prec emax (Zpos m) e l).
Proof.
  intros He. unfold shr_fexp, shr. cbn [Zdigits2].
  pose proof (digits2_pos_bounds m) as [Hlo _].
  set (d := Zpos (digits2_pos m)) in *.
  assert (Hrec : shr_m (shr_record_of_loc (Zpos m) l) = Zpos m)
    by (destruct l as [| []]; reflexivity).
  destruct (fexp (d + e) - e) as [| n | n] eqn:Hn; cbn [fst snd].
  - rewrite Hrec. lia.
  - rewrite iter_shr_1_m by (rewrite Hrec; lia). rewrite Hrec.
    assert (Hle : Zpos n <= d - 1).
    { unfold SpecFloat.fexp, SpecFloat.emin, prec, emax in *. lia. }
    split.
    + apply Z.div_str_pos. split; [apply Z.pow_pos_nonneg; lia |].
      apply Z.le_trans with (2 ^ (d - 1)); [apply Z.pow_le_mono_r; lia | exact Hlo].
    + lia.
  - rewrite Hrec. lia.
Qed.

Lemma round_nearest_even_pos (m : Z) (l : location) :
  0 < m -> 0 < round_nearest_even m l.
Proof.
  intros Hm. destruct l as [| []]; cbn [round_nearest_even]; try lia.
  destruct (Z.even m); lia.
Qed.

(** Rounding a non-zero mantissa at an exponent of at least [emin] never
    yields a zero or a NaN: the sign is kept. *)
Lemma binary_round_aux_signed (s : bool) (m : positive) (e : Z) (l : location) :
  emin <= e ->
  (exists m' e', binary_round_aux prec emax s (Zpos m) e l = S754_finite s m' e')
  \/ binary_round_aux prec emax s (Zpos m) e l = S754_infinity s.
Proof.
  intros He. unfold binary_round_aux.
  pose proof (shr_fexp_pos m e l He) as [H1 H1e].
  destruct (shr_fexp prec emax (Zpos m) e l) as [r1 e1]; cbn [fst snd] in *.
  pose proof (round_nearest_even_pos _ (loc_of_shr_record r1) H1) as H2.
  destruct (round_nearest_even (shr_m r1) (loc_of_shr_record r1)) as [| m2 | m2]; try lia.
  pose proof (shr_fexp_pos m2 e1 loc_Exact H1e) as [H3 _].
  destruct (shr_fexp prec emax (Zpos m2) e1 loc_Exact) as [r2 e2]; cbn [fst snd] in *.
  destruct (shr_m r2) as [| m3 | m3]; try lia.
  destruct (e2 <=? emax - prec); [left; eauto | right; reflexivity].
Qed.

Lemma shl_align_snd_ge (m : positive) (e e' : Z) :
  emin <= e -> emin <= e' -> emin <= snd (shl_align m e e').
Proof.
  intros He He'. unfold shl_align. destruct (e' - e); cbn [snd]; lia.
Qed.

Lemma binary_round_signed (s : bool) (m : positive) (e : Z) :
  emin <= e ->
  (exists m' e', binary_round prec emax s m e = S754_finite s m' e')
  \/ binary_round prec emax s m e = S754_infinity s.
Proof.
  intros He. unfold binary_round.
  pose proof (shl_align_snd_ge m e (fexp (Zpos (digits2_pos m) + e)) He) as Hs.
  destruct (shl_align m e (fexp (Zpos (digits2_pos m) + e))) as [mz ez]; cbn [snd] in Hs.
  apply binary_round_aux_signed. apply Hs. unfold SpecFloat.fexp. lia.
Qed.

(** Aligning a mantissa to a smaller exponent multiplies it by a power of
    two. *)
Lemma shl_align_fst (m : positive) (e e' : Z) :
  e' <= e -> Zpos (fst (shl_align m e e')) = Zpos m * 2 ^ (e - e').
Proof.
  intros Hle. unfold shl_align.
  destruct (e' - e) as [| d | d] eqn:Hd; cbn [fst]; try lia.
  - replace (e - e') with 0 by lia. lia.
  - replace (e - e') with (Zpos d) by lia.
    change (Pos.iter xO m d) with (shift_pos d m).
    rewrite shift_pos_correct, Z.pow_pos_fold. lia.
Qed.

(** A valid finite number is in canonical form: at most [prec] digits, and
    exactly [prec] above the least exponent. *)
Lemma valid_finite_canonical (s : bool) (m : positive) (e : Z) :
  valid_binary (S754_finite s m e) = true ->
  emin <= e /\ Zpos (digits2_pos m) <= prec /\
  (emin < e -> Zpos (digits2_pos m) = prec).
Proof.
  cbn [SpecFloat.valid_binary]. unfold bounded, canonical_mantissa.
  intros H. apply andb_true_iff in H as [H _]. apply Z.eqb_eq in H.
  unfold SpecFloat.fexp, SpecFloat.emin, prec, emax in *. lia.
Qed.

(** The signed mantissa of [(-1)^s * m * 2^e] at the exponent [ez <= e]. *)
Definition aligned (s : bool) (m : positive) (e ez : Z) : Z :=
  cond_Zopp s (Zpos (fst (shl_align m e ez))).

Lemma compare_aligned_pos (mx my : positive) (ex ey : Z) :
  valid_binary (S754_finite false mx ex) = true ->
  valid_binary (S754_finite false my ey) = true ->
  match ex ?= ey with
  | Lt => Lt
  | Gt => Gt
  | Eq => Pos.compare_cont Eq mx my
  end = (aligned false mx ex (Z.min ex ey) ?= aligned false my ey (Z.min ex ey)).
Proof.
  intros Hx Hy.
  apply valid_finite_canonical in Hx as (Hxe & Hxd & Hxn).
  apply valid_finite_canonical in Hy as (Hye & Hyd & Hyn).
  pose proof (digits2_pos_bounds mx) as [Hxlo Hxhi].
  pose proof (digits2_pos_bounds my) as [Hylo Hyhi].
  unfold aligned, cond_Zopp.
  rewrite !shl_align_fst by lia.
  destruct (Z.compare_spec ex ey) as [Heq | Hlt | Hgt].
  - subst ey. rewrite Z.min_id, Z.sub_diag, !Z.mul_1_r. reflexivity.
  - rewrite Z.min_l by lia. rewrite Z.sub_diag, Z.mul_1_r.
    symmetry. apply Z.compare_lt_iff.
    rewrite (Hyn ltac:(lia)) in Hylo.
    assert (Hp : 2 ^ 1 <= 2 ^ (ey - ex)) by (apply Z.pow_le_mono_r; lia).
    assert (Hq : 2 ^ Zpos (digits2_pos mx) <= 2 ^ prec) by (apply Z.pow_le_mono_r; lia).
    change (2 ^ 1) with 2 in Hp.
    assert (Hr : 2 ^ prec = 2 * 2 ^ (prec - 1)) by reflexivity.
    nia.
  - rewrite Z.min_r by lia. rewrite Z.sub_diag, Z.mul_1_r.
    symmetry. apply Z.compare_gt_iff.
    rewrite (Hxn ltac:(lia)) in Hxlo.
    assert (Hp : 2 ^ 1 <= 2 ^ (ex - ey)) by (apply Z.pow_le_mono_r; lia).
    assert (Hq : 2 ^ Zpos (digits2_pos my) <= 2 ^ prec) by (apply Z.pow_le_mono_r; lia).
    change (2 ^ 1) with 2 in Hp.
    assert (Hr : 2 ^ prec = 2 * 2 ^ (prec - 1)) by reflexivity.
    nia.
Qed.

Lemma aligned_true (m : positive) (e ez : Z) :
  aligned true m e ez = - aligned false m e ez.
Proof. reflexivity. Qed.

Lemma aligned_false_pos (m : positive) (e ez : Z) : 0 < aligned false m e ez.
Proof. unfold aligned, cond_Zopp. lia. Qed.

(** On valid finite numbers the comparison of the specification is the
    comparison of the mantissas aligned to the smaller exponent. *)
Lemma SFcompare_aligned (sx sy : bool) (mx my : positive) (ex ey : Z) :
  valid_binary (S754_finite sx mx ex) = true ->
  valid_binary (S754_finite sy my ey) = true ->
  SFcompare (S754_finite sx mx ex) (S754_finite sy my ey) =
  Some (aligned sx mx ex (Z.min ex ey) ?= aligned sy my ey (Z.min ex ey)).
Proof.
  intros Hx Hy. cbn [SFcompare].
  pose proof (compare_aligned_pos mx my ex ey Hx Hy) as Hc.
  pose proof (aligned_false_pos mx ex (Z.min ex ey)) as Hpx.
  pose proof (aligned_false_pos my ey (Z.min ex ey)) as Hpy.
  destruct sx, sy; [| reflexivity | reflexivity |]; rewrite ?aligned_true; f_equal.
  - rewrite Z.compare_opp, (Z.compare_antisym (aligned false mx ex _)), <- Hc.
    destruct (ex ?= ey); reflexivity.
  - exact Hc.
Qed.

Lemma SFleb_normalize_zero (M e : Z) :
  emin <= e ->
  SFleb (binary_normalize prec emax M e false) (S754_zero false) = (M <=? 0).
Proof.
  intros He. destruct M as [| p | p]; cbn [binary_normalize].
  - reflexivity.
  - destruct (binary_round_signed false p e He) as [(m' & e' & ->) | ->]; reflexivity.
  - destruct (binary_round_signed true p e He) as [(m' & e' & ->) | ->]; reflexivity.
Qed.

(** The sign of a difference of two numbers decides their order, unless the
    difference is undefined (equal infinities or a NaN operand). *)
Lemma SFsub_leb_zero (X Y : spec_float) :
  valid_binary X = true -> valid_binary Y = true ->
  SFcompare X Y <> None ->
  (forall s, X = S754_infinity s -> Y <> S754_infinity s) ->
  SFleb (SF64sub X Y) (S754_zero false) = SFleb X Y.
Proof.
  intros HX HY Hc Hinf.
  destruct X as [sx | sx | | sx mx ex], Y as [sy | sy | | sy my ey];
    try (exfalso; apply Hc; reflexivity);
    try (destruct sx, sy; try reflexivity; exfalso; eapply Hinf; reflexivity);
    try (destruct sx; reflexivity); try (destruct sy; reflexivity).
  unfold SF64sub, SFsub. fold (aligned sx mx ex (Z.min ex ey)) (aligned sy my ey (Z.min ex ey)).
  pose proof (valid_finite_canonical _ _ _ HX) as (Hxe & _).
  pose proof (valid_finite_canonical _ _ _ HY) as (Hye & _).
  rewrite SFleb_normalize_zero by lia.
  unfold SFleb. rewrite SFcompare_aligned by assumption.
  destruct (Z.compare_spec (aligned sx mx ex (Z.min ex ey)) (aligned sy my ey (Z.min ex ey)));
    [apply Z.leb_le | apply Z.leb_le | apply Z.leb_gt]; lia.
Qed.

Lemma SFcompare_antisym (X Y : spec_float) :
  valid_binary X = true -> valid_binary Y = true ->
  SFcompare X Y = option_map CompOpp (SFcompare Y X).
Proof.
  intros HX HY.
  destruct X as [sx | sx | | sx mx ex], Y as [sy | sy | | sy my ey];
    try reflexivity;
    try (destruct sx, sy; reflexivity); try (destruct sx; reflexivity);
    try (destruct sy; reflexivity).
  rewrite (SFcompare_aligned sx sy), (SFcompare_aligned sy sx) by assumption.
  cbn [option_map]. rewrite (Z.min_comm ey ex), <- Z.compare_antisym. reflexivity.
Qed.

(** Conversion of whole numbers: a mantissa of at most [prec] digits at
    exponent 0 is shifted to its canonical form and kept as it is. *)
Lemma digits2_pos_iter_xO (m k : positive) :
  digits2_pos (Pos.iter xO m k) = (digits2_pos m + k)%positive.
Proof.
  induction k as [| k IH] using Pos.peano_ind.
  - cbn. lia.
  - rewrite Pos.iter_succ. cbn [digits2_pos]. rewrite IH. lia.
Qed.

Lemma shl_align_digits (m : positive) (e e' : Z) :
  e' <= e ->
  Zpos (digits2_pos (fst (shl_align m e e'))) = Zpos (digits2_pos m) + (e - e') /\
  snd (shl_align m e e') = e'.
Proof.
  intros Hle. unfold shl_align.
  destruct (e' - e) as [| d | d] eqn:Hd; cbn [fst snd]; try lia.
  rewrite digits2_pos_iter_xO. lia.
Qed.

Lemma binary_round_aux_canonical (s : bool) (m : positive) (e : Z) :
  Zpos (digits2_pos m) = prec -> emin <= e <= emax - prec ->
  binary_round_aux prec emax s (Zpos m) e loc_Exact = S754_finite s m e.
Proof.
  intros Hd He. unfold binary_round_aux, shr_fexp. cbn [Zdigits2 shr_record_of_loc].
  rewrite Hd.
  replace (fexp (prec + e) - e) with 0
    by (unfold SpecFloat.fexp, SpecFloat.emin, prec, emax in *; lia).
  cbn [shr shr_m loc_of_shr_record round_nearest_even Zdigits2 shr_record_of_loc].
  rewrite Hd.
  replace (fexp (prec + e) - e) with 0
    by (unfold SpecFloat.fexp, SpecFloat.emin, prec, emax in *; lia).
  cbn [shr shr_m].
  replace (e <=? emax - prec) with true by (symmetry; apply Z.leb_le; lia).
  reflexivity.
Qed.

Lemma binary_round_exact (s : bool) (m : positive) :
  Zpos (digits2_pos m) <= prec ->
  binary_round prec emax s m 0 =
  S754_finite s (fst (shl_align m 0 (Zpos (digits2_pos m) - prec)))
    (Zpos (digits2_pos m) - prec).
Proof.
  intros Hd. unfold binary_round.
  replace (fexp (Zpos (digits2_pos m) + 0)) with (Zpos (digits2_pos m) - prec)
    by (unfold SpecFloat.fexp, SpecFloat.emin, prec, emax in *; lia).
  destruct (shl_align_digits m 0 (Zpos (digits2_pos m) - prec) ltac:(lia)) as [H1 H2].
  destruct (shl_align m 0 (Zpos (digits2_pos m) - prec)) as [mz ez]; cbn [fst snd] in *.
  subst ez. apply binary_round_aux_canonical; [lia |].
  unfold SpecFloat.emin, prec, emax in *; lia.
Qed.

(** Whole numbers below 2^53 convert without rounding. *)
Lemma digits2_pos_le_prec (m : positive) :
  Zpos m < 2 ^ prec -> Zpos (digits2_pos m) <= prec.
Proof.
  intros Hm. pose proof (digits2_pos_bounds m) as [Hlo _].
  assert (H : 2 ^ (Zpos (digits2_pos m) - 1) < 2 ^ prec) by lia.
  apply Z.pow_lt_mono_r_iff in H; unfold prec in *; lia.
Qed.

Lemma binary_round_exact_valid (s : bool) (m : positive) :
  Zpos m < 2 ^ prec ->
  exists mz ez,
    binary_round prec emax s m 0 = S754_finite s mz ez /\
    valid_binary (S754_finite s mz ez) = true /\
    ez <= 0 /\ Zpos mz = Zpos m * 2 ^ (- ez).
Proof.
  intros Hm. pose proof (digits2_pos_le_prec m Hm) as Hd.
  exists (fst (shl_align m 0 (Zpos (digits2_pos m) - prec))),
         (Zpos (digits2_pos m) - prec).
  split; [apply binary_round_exact; exact Hd |].
  destruct (shl_align_digits m 0 (Zpos (digits2_pos m) - prec) ltac:(lia)) as [H1 _].
  repeat split.
  - cbn [SpecFloat.valid_binary]. unfold bounded, canonical_mantissa.
    apply andb_true_iff. split; [apply Z.eqb_eq | apply Z.leb_le].
    + rewrite H1. unfold SpecFloat.fexp, SpecFloat.emin, prec, emax in *. lia.
    + unfold prec, emax in *. lia.
  - lia.
  - rewrite shl_align_fst by lia. rewrite Z.sub_0_l. reflexivity.
Qed.

Local Open Scope float_scope.

Lemma Prim2SF_zero : Prim2SF 0 = S754_zero false.
Proof. reflexivity. Qed.

Lemma Prim2SF_nan : Prim2SF nan = S754_nan.
Proof. reflexivity. Qed.

Lemma is_infinity_false (x : float) (s : bool) :
  is_infinity x = false -> Prim2SF x <> S754_infinity s.
Proof.
  unfold is_infinity. rewrite eqb_spec, abs_spec. intros H E.
  rewrite E in H. discriminate H.
Qed.

Lemma is_nan_spec (x : float) : is_nan x = true <-> Prim2SF x = S754_nan.
Proof.
  unfold is_nan. rewrite eqb_spec.
  pose proof (Prim2SF_valid x) as Hv.
  destruct (Prim2SF x) as [s | s | | s m e].
  - split; discriminate.
  - destruct s; split; discriminate.
  - split; reflexivity.
  - pose proof (SFcompare_aligned s s m m e e Hv Hv) as Hc.
    rewrite Z.compare_refl in Hc.
    unfold SFeqb. rewrite Hc. split; discriminate.
Qed.

(** [x - y <= 0] when [x <= y], unless [x] is infinite. *)
Theorem sub_nonpos (x y : float) :
  (x <=? y) = true -> is_infinity x = false -> (x - y <=? 0) = true.
Proof.
  intros Hle Hinf.
  rewrite leb_spec in *. rewrite sub_spec, Prim2SF_zero.
  rewrite SFsub_leb_zero; auto using Prim2SF_valid.
  - unfold SFleb in Hle. intros E. rewrite E in Hle. discriminate.
  - intros s E. exfalso. exact (is_infinity_false x s Hinf E).
Qed.

(** [x - y <= 0] fails when [y < x]. *)
Theorem sub_pos (x y : float) :
  (y <? x) = true -> (x - y <=? 0) = false.
Proof.
  intros Hlt.
  rewrite ltb_spec in Hlt. rewrite leb_spec, sub_spec, Prim2SF_zero.
  pose proof (SFcompare_antisym (Prim2SF x) (Prim2SF y)
                (Prim2SF_valid x) (Prim2SF_valid y)) as Ha.
  unfold SFltb in Hlt.
  destruct (SFcompare (Prim2SF y) (Prim2SF x)) as [[| |] |] eqn:Hc; try discriminate.
  cbn in Ha.
  rewrite SFsub_leb_zero; auto using Prim2SF_valid.
  - unfold SFleb. rewrite Ha. reflexivity.
  - rewrite Ha. discriminate.
  - intros s E1 E2. rewrite E1, E2 in Hc. destruct s; discriminate.
Qed.

(** A number that is [<= 0] is not [> 0], and conversely. *)
Lemma leb_zero_not_gt (a : float) : (a <=? 0) = true -> (0 <? a) = false.
Proof.
  rewrite leb_spec, ltb_spec, Prim2SF_zero.
  destruct (Prim2SF a) as [s | [|] | | [|] m e]; cbn; congruence.
Qed.

Lemma gt_zero_not_leb (a : float) : (0 <? a) = true -> (a <=? 0) = false.
Proof.
  rewrite leb_spec, ltb_spec, Prim2SF_zero.
  destruct (Prim2SF a) as [s | [|] | | [|] m e]; cbn; congruence.
Qed.

(** Subtracting [0] changes nothing, not even the sign of a zero. *)
Lemma sub_zero (x : float) : x - 0 = x.
Proof.
  apply Prim2SF_inj. rewrite sub_spec, Prim2SF_zero.
  destruct (Prim2SF x) as [[|] | [|] | | s m e]; reflexivity.
Qed.

(** Adding [0] gives an equal number ([-0 + 0] is [+0], which [===] does not
    tell from [-0]). *)
Lemma add_zero_eqb (x : float) : is_nan x = false -> (x + 0 =? x) = true.
Proof.
  intros Hn.
  assert (Hx : Prim2SF x <> S754_nan).
  { intros E. apply is_nan_spec in E. congruence. }
  rewrite eqb_spec, add_spec, Prim2SF_zero.
  pose proof (Prim2SF_valid x) as Hv.
  destruct (Prim2SF x) as [[|] | [|] | | s m e]; try reflexivity; try congruence.
  cbn [SF64add SFadd]. unfold SF64add, SFadd, SFeqb.
  rewrite (SFcompare_aligned s s m m e e Hv Hv), Z.compare_refl. reflexivity.
Qed.

(** Arithmetic on a NaN operand. *)
Lemma div_nan_r (x : float) : x / nan = nan.
Proof.
  apply Prim2SF_inj. rewrite div_spec, Prim2SF_nan.
  destruct (Prim2SF x); reflexivity.
Qed.

Lemma eqb_nan_l (x : float) : (nan =? x) = false.
Proof. rewrite eqb_spec, Prim2SF_nan. reflexivity. Qed.

Lemma is_finite_not_nan (x : float) : is_finite x = true -> is_nan x = false.
Proof.
  unfold is_finite. destruct (is_nan x); [discriminate | reflexivity].
Qed.

Lemma is_finite_not_infinity (x : float) : is_finite x = true -> is_infinity x = false.
Proof.
  unfold is_finite. destruct (is_nan x), (is_infinity x); cbn; congruence.
Qed.

Lemma Prim2SF_of_Z (z : Z) :
  (z <> 0)%Z -> (Z.abs z < 2 ^ prec)%Z ->
  exists mz ez,
    Prim2SF (JS.of_Z z) = S754_finite (z <? 0)%Z mz ez /\
    (ez <= 0)%Z /\ Zpos mz = (Z.abs z * 2 ^ (- ez))%Z.
Proof.
  intros Hz Hb. unfold JS.of_Z.
  destruct z as [| m | m]; [congruence | |]; cbn [binary_normalize Z.ltb Z.compare].
  - destruct (binary_round_exact_valid false m Hb) as (mz & ez & -> & Hv & He & Hm).
    exists mz, ez. rewrite Prim2SF_SF2Prim by exact Hv. auto.
  - destruct (binary_round_exact_valid true m Hb) as (mz & ez & -> & Hv & He & Hm).
    exists mz, ez. rewrite Prim2SF_SF2Prim by exact Hv. auto.
Qed.

Lemma to_integer_of_Z (z : Z) :
  (Z.abs z < 2 ^ prec)%Z -> JS.to_integer (JS.of_Z z) = z.
Proof.
  intros Hb. destruct (Z.eq_dec z 0) as [-> | Hz]; [reflexivity |].
  destruct (Prim2SF_of_Z z Hz Hb) as (mz & ez & Hp & He & Hm).
  unfold JS.to_integer. rewrite Hp.
  assert (Hs : JS.signed (z <? 0)%Z mz = (z * 2 ^ (- ez))%Z).
  { unfold JS.signed. destruct (Z.ltb_spec z 0).
    - change (Zneg mz) with (- Zpos mz)%Z. rewrite Hm. lia.
    - rewrite Hm. lia. }
  rewrite Hs.
  destruct (Z.leb_spec 0 ez).
  - replace ez with 0%Z by lia. cbn. lia.
  - apply Z.div_mul. apply Z.pow_nonzero; lia.
Qed.

Lemma is_integer_of_Z (z : Z) :
  (Z.abs z < 2 ^ prec)%Z -> JS.is_integer (JS.of_Z z) = true.
Proof.
  intros Hb. destruct (Z.eq_dec z 0) as [-> | Hz]; [reflexivity |].
  destruct (Prim2SF_of_Z z Hz Hb) as (mz & ez & Hp & He & Hm).
  unfold JS.is_integer. rewrite Hp, Hm.
  rewrite Z.mod_mul by (apply Z.pow_nonzero; lia).
  apply orb_true_r.
Qed.

End FloatFacts.


(** * The month search *)

Section Search.

Local Open Scope Z_scope.

Variable reached : Z -> bool.
Variables low0 high0 result0 : Z.

(** Once true, true at every later month of the range. *)
Definition monotone_on : Prop :=
  forall m m', low0 <= m -> m <= m' -> m' <= high0 ->
    reached m = true -> reached m' = true.

(** What holds of the loop variables at the head of every turn. *)
Definition search_invariant (low high result : Z) (found : bool) : Prop :=
  low0 <= low /\ high <= high0 /\ low <= high + 1 /\
  (forall m, low0 <= m < low -> reached m = false) /\
  (if found
   then result = high + 1 /\ result <= high0 /\ reached result = true
   else high = high0 /\ result = result0).

(** What the loop returns. *)
Definition search_outcome (out : Z * bool) : Prop :=
  (snd out = true /\ low0 <= fst out <= high0 /\ reached (fst out) = true /\
   forall m, low0 <= m < fst out -> reached m = false)
  \/
  (snd out = false /\ fst out = result0 /\
   forall m, low0 <= m <= high0 -> reached m = false).

Lemma searchLoop_outcome (Hmono : monotone_on) (low high result : Z) (found : bool) :
  search_invariant low high result found ->
  search_outcome (searchLoop reached low high result found).
Proof.
  funelim (searchLoop reached low high result found);
    intros (Hlo & Hhi & Hord & Hbelow & Hfound).
  - (* one more turn *)
    clear Heq.
    set (mid := (low + high) / 2) in *.
    assert (Hmid : low <= mid <= high)
      by (unfold mid; split;
          [apply Z.div_le_lower_bound | apply Z.div_le_upper_bound]; lia).
    cbv zeta. destruct (reached mid) eqn:Hr.
    + apply H; [exact Hmono |]. repeat split; try lia; auto.
    + apply H0; [exact Hmono |]. repeat split; try lia.
      * intros m Hm.
        destruct (reached m) eqn:Hrm; [| reflexivity].
        rewrite (Hmono m mid) in Hr; [discriminate | lia | lia | lia | exact Hrm].
      * destruct found; [exact Hfound | exact Hfound].
  - (* the loop is left *)
    clear Heq. unfold search_outcome. destruct found; cbn [fst snd].
    + destruct Hfound as (-> & Hle & Hr). left. repeat split; try lia; auto.
      intros m Hm. apply Hbelow. lia.
    + destruct Hfound as [-> ->]. right. repeat split.
      intros m Hm. apply Hbelow. lia.
Qed.

End Search.

(** * Properties of the engine *)

(** Checking a predicate on every month of the search range. *)
Lemma forallb_months (P : Z -> bool) :
  forallb P (map Z.of_nat (seq 0 1201)) = true ->
  forall m, (0 <= m <= 1200)%Z -> P m = true.
Proof.
  intros H m Hm. rewrite forallb_forall in H. apply H.
  apply in_map_iff. exists (Z.to_nat m). split; [lia |].
  apply in_seq. lia.
Qed.

(** A search on a monotone predicate that holds somewhere in [0, 1200]
    reports a hit at the least month where it holds. *)
Lemma searchMonths_least (reached : Z -> bool) :
  (forall m m', (0 <= m)%Z -> (m <= m')%Z -> (m' <= 1200)%Z ->
     reached m = true -> reached m' = true) ->
  (exists m, (0 <= m <= 1200)%Z /\ reached m = true) ->
  exists n,
    searchMonths reached = (n, true) /\
    (0 <= n <= 1200)%Z /\
    reached n = true /\
    (forall m, (0 <= m < n)%Z -> reached m = false).
Proof.
  intros Hmono (m0 & Hm0 & Hr0).
  assert (Hinit : search_invariant reached 0 1200 1200 0 1200 1200 false).
  { unfold search_invariant. repeat split; lia. }
  pose proof (searchLoop_outcome reached 0 1200 1200 Hmono
                0 1200 1200 false Hinit) as Hout.
  fold (searchMonths reached) in Hout.
  destruct (searchMonths reached) as [n f].
  destruct Hout as [(Hf & Hn & Hr & Hleast) | (_ & _ & Hnone)]; cbn [fst snd] in *.
  - subst f. exists n. repeat split; try lia; auto.
  - rewrite (Hnone m0 Hm0) in Hr0. discriminate.
Qed.

(** C2 -- Root-finder minimality: for every probe whose success predicate
    [totalAssets m >= targetAtMonths m] is monotone on [0, 1200] and holds at
    some month of [0, 1200], the binary search reports a hit at the least
    such month, and the month before it fails the inequality unless the
    answer is 0. *)
Theorem search_returns_least_month (probe : Z -> float * float) :
  (forall m m', (0 <= m)%Z -> (m <= m')%Z -> (m' <= 1200)%Z ->
     probe_reached probe m = true -> probe_reached probe m' = true) ->
  (exists m, (0 <= m <= 1200)%Z /\ probe_reached probe m = true) ->
  exists n,
    searchMonths (probe_reached probe) = (n, true) /\
    (0 <= n <= 1200)%Z /\
    probe_reached probe n = true /\
    (forall m, (0 <= m < n)%Z -> probe_reached probe m = false) /\
    (n <> 0%Z -> probe_reached probe (n - 1) = false).
Proof.
  intros Hmono Hex.
  destruct (searchMonths_least (probe_reached probe) Hmono Hex)
    as (n & Hs & Hn & Hr & Hleast).
  exists n. repeat split; try lia; auto.
  intros Hn0. apply Hleast. lia.
Qed.

(** A search whose probe never succeeds ends with [result] still at the
    ceiling and [found] still false. *)
Lemma search_without_hit (reached : Z -> bool) :
  (forall m, (0 <= m <= 1200)%Z -> reached m = false) ->
  searchMonths reached = (1200%Z, false).
Proof.
  intros Hnone.
  assert (Hmono : monotone_on reached 0 1200).
  { intros m m' Hm Hmm Hm' Hr. rewrite Hnone in Hr by lia. discriminate. }
  assert (Hinit : search_invariant reached 0 1200 1200 0 1200 1200 false).
  { unfold search_invariant. repeat split; lia. }
  pose proof (searchLoop_outcome reached 0 1200 1200 Hmono 0 1200 1200 false Hinit) as Ho.
  fold (searchMonths reached) in Ho.
  destruct (searchMonths reached) as [n f].
  destruct Ho as [(_ & Hn & Hr & _) | (Hf & Hn & _)]; cbn [fst snd] in *.
  - rewrite Hnone in Hr by lia. discriminate.
  - subst. reflexivity.
Qed.

Section Claims.

Local Open Scope float_scope.

Variable pow_approx : float -> float -> float.
Variable log_approx : float -> float.

(** In contribution-based mode the search is run on [targetReached], after
    the month-0 shortcut, so the month count it reports is the least month
    of [0, 1200] at which the projection meets the target. *)
Lemma contribution_months_least (inputs : FinancialInputs) :
  (forall m m', (0 <= m)%Z -> (m <= m')%Z -> (m' <= 1200)%Z ->
     targetReached pow_approx inputs m = true ->
     targetReached pow_approx inputs m' = true) ->
  (exists m, (0 <= m <= 1200)%Z /\ targetReached pow_approx inputs m = true) ->
  exists n,
    totalMonthsToFI (calculateContributionTimeline pow_approx inputs) = JS.of_Z n /\
    (0 <= n <= 1200)%Z /\
    targetReached pow_approx inputs n = true /\
    (forall m, (0 <= m < n)%Z -> targetReached pow_approx inputs m = false).
Proof.
  intros Hmono Hex.
  unfold calculateContributionTimeline.
  fold (targetReached pow_approx inputs 0).
  destruct (targetReached pow_approx inputs 0) eqn:H0.
  - exists 0%Z. repeat split; try lia; auto.
  - destruct (searchMonths_least (targetReached pow_approx inputs) Hmono Hex)
      as (n & Hs & Hn & Hr & Hleast).
    rewrite Hs. cbn [totalMonthsToFI]. exists n. auto.
Qed.

(** C3 -- Unreached-target reporting: in contribution-based mode, when the
    probe meets the target at no month of [0, 1200], the result reports
    [yearsToFI] and [totalMonthsToFI] as [Infinity] (not a finite number)
    while [totalFutureSavings], [totalFutureInvestment] and
    [targetAtCompletion] carry the projection at month 1200. *)
Theorem unreached_target_is_infinite (inputs : FinancialInputs) :
  (forall m, (0 <= m <= 1200)%Z -> targetReached pow_approx inputs m = false) ->
  let r := calculateFinancialIndependence pow_approx inputs ContributionBased in
  let completion := projectPortfolio pow_approx inputs 1200 in
  yearsToFI r = infinity /\
  totalMonthsToFI r = infinity /\
  JS.isFinite (totalMonthsToFI r) = false /\
  totalFutureSavings r = Some (savingsFutureValue completion) /\
  totalFutureInvestment r = Some (investmentsFutureValue completion) /\
  targetAtCompletion r = Some (target completion).
Proof.
  intros Hnone r completion. subst r completion.
  cbn [calculateFinancialIndependence]. unfold calculateContributionTimeline.
  fold (targetReached pow_approx inputs 0).
  rewrite (Hnone 0%Z) by lia.
  rewrite (search_without_hit _ Hnone).
  cbn [yearsToFI totalMonthsToFI totalFutureSavings totalFutureInvestment
       targetAtCompletion].
  repeat split; reflexivity.
Qed.

(** The month count of the search stays in [0, 1200], whatever the probe. *)
Lemma searchLoop_range (reached : Z -> bool) (low high result : Z) (found : bool) :
  (0 <= low)%Z -> (high <= 1200)%Z -> (0 <= result <= 1200)%Z ->
  (0 <= fst (searchLoop reached low high result found) <= 1200)%Z.
Proof.
  funelim (searchLoop reached low high result found); intros Hlo Hhi Hres.
  - clear Heq.
    set (mid := ((low + high) / 2)%Z) in *.
    assert (Hmid : (low <= mid <= high)%Z)
      by (unfold mid; split;
          [apply Z.div_le_lower_bound | apply Z.div_le_upper_bound]; lia).
    cbv zeta. destruct (reached mid); [apply H | apply H0]; lia.
  - exact Hres.
Qed.

Lemma searchMonths_range (reached : Z -> bool) :
  (0 <= fst (searchMonths reached) <= 1200)%Z.
Proof. apply searchLoop_range; lia. Qed.

(** On the month counts the search can return, years times 12 plus months
    is the count again, without rounding. *)
Lemma month_count_splits (n : Z) :
  (0 <= n <= 1200)%Z ->
  (JS.of_Z (n / 12) * 12 + JS.of_Z (n mod 12) =? JS.of_Z n) = true /\
  (0 <=? JS.of_Z (n mod 12)) = true.
Proof.
  intros Hn. apply andb_true_iff.
  apply (forallb_months
    (fun n => (JS.of_Z (n / 12) * 12 + JS.of_Z (n mod 12) =? JS.of_Z n)
              && (0 <=? JS.of_Z (n mod 12)))); [vm_compute; reflexivity | exact Hn].
Qed.

(** A base of 1 over a horizon of whole years, or its months. *)
Lemma pow_one_horizon (h : Z) :
  (0 <= h <= 1200)%Z ->
  JS.Math_pow pow_approx 1 (JS.of_Z h) = 1 /\
  JS.Math_pow pow_approx 1 (JS.of_Z h * 12) = 1.
Proof.
  intros Hh.
  apply (forallb_months
    (fun h => PrimFloat.Leibniz.eqb (JS.Math_pow pow_approx 1 (JS.of_Z h)) 1
              && PrimFloat.Leibniz.eqb (JS.Math_pow pow_approx 1 (JS.of_Z h * 12)) 1))
    in Hh; [| vm_compute; reflexivity].
  apply andb_true_iff in Hh as [H1 H2].
  split; apply FloatAxioms.Leibniz.eqb_spec; assumption.
Qed.

(** C1 -- Goal-based mode at zero rates: with no current assets and both
    rates 0, the claim asks for [targetFINumber / (timeHorizon * 12)].  The
    strategy forms [(Math.pow(1, months) - 1) / 0], which is [NaN], and
    returns [NaN]: the annuity factor is not guarded against a zero rate. *)
Theorem goal_based_zero_rate_is_nan (inputs : FinancialInputs) :
  currentSavings inputs = 0 ->
  JS.or_undefined (currentInvestments inputs) 0 = 0 ->
  annualReturn inputs = 0 ->
  JS.or_undefined (savingsInterestRate inputs) 0 = 0 ->
  JS.gt (targetFINumber inputs) 0 = true ->
  (1 <= timeHorizon inputs <= 100)%Z ->
  let r := calculateFinancialIndependence pow_approx inputs GoalBased in
  requiredMonthlySavings r = nan /\
  (requiredMonthlySavings r =?
     targetFINumber inputs / (JS.of_Z (timeHorizon inputs) * 12)) = false.
Proof.
  intros Hs Hi Hr Hsr Ht Hh r.
  assert (Hreq : requiredMonthlySavings r = nan).
  { subst r. cbn [calculateFinancialIndependence]. unfold calculateGoalBased.
    unfold calculateFutureValue, fvFactor.
    rewrite Hs, Hi, Hr, Hsr.
    change (1 + 0) with 1. change (0 / 12) with 0. change (1 + 0) with 1.
    destruct (pow_one_horizon (timeHorizon inputs) ltac:(lia)) as [-> ->].
    change (0 * 1 + 0 * 1) with 0.
    rewrite FloatFacts.sub_zero, Ht.
    change ((1 - 1) / 0) with nan.
    change (0.3 * nan + 0.7 * nan) with nan.
    cbn [requiredMonthlySavings]. apply FloatFacts.div_nan_r. }
  split; [exact Hreq |]. rewrite Hreq. apply FloatFacts.eqb_nan_l.
Qed.

(** The sibling [calculateRequiredMonthlySavings] has the guard, and returns
    what the claim asks for on the same data. *)
Lemma guarded_sibling_divides_evenly (targetAmount : float) (h : Z) :
  JS.gt targetAmount 0 = true -> (1 <= h <= 100)%Z ->
  calculateRequiredMonthlySavings pow_approx targetAmount 0 0 (JS.of_Z h) =
  targetAmount / (JS.of_Z h * 12).
Proof.
  intros Ht Hh. unfold calculateRequiredMonthlySavings, calculateFutureValue.
  change (1 + 0) with 1. change (0 / 12) with 0. change (1 + 0) with 1.
  destruct (pow_one_horizon h ltac:(lia)) as [-> ->].
  change (0 * 1) with 0. rewrite FloatFacts.sub_zero.
  rewrite (FloatFacts.gt_zero_not_leb _ Ht).
  change (1 - 1 =? 0) with true. reflexivity.
Qed.

(** Fields of the results that are the same on every branch of a strategy. *)
Lemma time_based_baseline_aux (inputs : FinancialInputs) :
  baseFINumber (calculateTimeBasedStrategy pow_approx inputs) =
    Some (monthlyExpenses inputs * 12 * 25) /\
  yearsToFI (calculateTimeBasedStrategy pow_approx inputs) = JS.of_Z (timeHorizon inputs).
Proof.
  unfold calculateTimeBasedStrategy. destruct (JS.gt _ _); split; reflexivity.
Qed.

Lemma contribution_base_aux (inputs : FinancialInputs) :
  baseFINumber (calculateContributionTimeline pow_approx inputs) =
    Some (baseTarget inputs) /\
  suggestedMonthlySavings (calculateContributionTimeline pow_approx inputs) =
    Some (JS.or_undefined (monthlySavings inputs) 0) /\
  suggestedMonthlyInvestment (calculateContributionTimeline pow_approx inputs) =
    Some (JS.or_undefined (monthlyInvestment inputs) 0) /\
  requiredMonthlySavings (calculateContributionTimeline pow_approx inputs) =
    JS.or_undefined (monthlySavings inputs) 0 +
    JS.or_undefined (monthlyInvestment inputs) 0.
Proof.
  unfold calculateContributionTimeline. destruct (JS.ge _ _).
  - repeat split; reflexivity.
  - destruct (searchMonths _). repeat split; reflexivity.
Qed.

(** C4 -- Contribution-based target: the baseline is [targetFINumber] when
    it is a non-zero number, else [monthlyExpenses * 12 * 25]; the target
    probed at month [m] is the baseline times [(1 + r_m)^m] with
    [r_m = (1 + inflationRate)^(1/12) - 1]; the result keeps the baseline and
    the target of the month it reports. *)
Theorem contribution_target_definition (inputs : FinancialInputs) :
  let r := calculateFinancialIndependence pow_approx inputs ContributionBased in
  let t := targetFINumber inputs in
  let baseline :=
    if is_zero t || is_nan t then monthlyExpenses inputs * 12 * 25 else t in
  let r_m := JS.Math_pow pow_approx (1 + inflationRate inputs) (1 / 12) - 1 in
  baseFINumber r = Some baseline /\
  (forall m, target (projectPortfolio pow_approx inputs m) =
             baseline * JS.Math_pow pow_approx (1 + r_m) (JS.of_Z m)) /\
  (exists m, targetAtCompletion r =
             Some (baseline * JS.Math_pow pow_approx (1 + r_m) (JS.of_Z m))).
Proof.
  intros r t baseline r_m.
  assert (Hb : baseTarget inputs = baseline).
  { unfold baseTarget, JS.or, JS.truthy. subst baseline t.
    destruct (is_zero (targetFINumber inputs) || is_nan (targetFINumber inputs));
      reflexivity. }
  assert (Ht : forall m, target (projectPortfolio pow_approx inputs m) =
                         baseline * JS.Math_pow pow_approx (1 + r_m) (JS.of_Z m)).
  { intros m. unfold projectPortfolio. cbn [target]. rewrite Hb. reflexivity. }
  subst r. cbn [calculateFinancialIndependence]. unfold calculateContributionTimeline.
  destruct (JS.ge _ _).
  - cbn [baseFINumber targetAtCompletion]. rewrite Hb.
    repeat split; auto. exists 0%Z. rewrite Ht. reflexivity.
  - destruct (searchMonths (targetReached pow_approx inputs)) as [result found].
    cbn [baseFINumber targetAtCompletion]. rewrite Hb.
    repeat split; auto. exists result. rewrite Ht. reflexivity.
Qed.

(** The monthly-equivalent rate is not the twelfth of the annual rate: at an
    inflation of -100% the first is -1 and the second -1/12. *)
Remark monthly_equivalent_rate_differs :
  (JS.Math_pow pow_approx (1 + (-1)) (1 / 12) - 1 =? (-1) / 12) = false.
Proof. vm_compute. reflexivity. Qed.

(** C6 -- Time-based baseline: [baseFINumber] is [monthlyExpenses * 12 * 25],
    a function of [monthlyExpenses] alone, and [calculatedFINumber] is that
    baseline times [(1 + inflationRate)^timeHorizon]. *)
Theorem time_based_baseline (inputs : FinancialInputs) :
  let r := calculateFinancialIndependence pow_approx inputs TimeBased in
  let baseline := monthlyExpenses inputs * 12 * 25 in
  baseFINumber r = Some baseline /\
  calculatedFINumber r =
    Some (baseline *
          JS.Math_pow pow_approx (1 + inflationRate inputs) (JS.of_Z (timeHorizon inputs))) /\
  (forall inputs',
     monthlyExpenses inputs' = monthlyExpenses inputs ->
     baseFINumber (calculateFinancialIndependence pow_approx inputs' TimeBased) =
     baseFINumber r).
Proof.
  intros r baseline.
  assert (Hbase : forall i,
    baseFINumber (calculateFinancialIndependence pow_approx i TimeBased) =
    Some (monthlyExpenses i * 12 * 25)).
  { intros i. cbn [calculateFinancialIndependence]. unfold calculateTimeBasedStrategy.
    destruct (JS.gt _ _); reflexivity. }
  repeat split.
  - apply Hbase.
  - subst r. cbn [calculateFinancialIndependence]. unfold calculateTimeBasedStrategy.
    destruct (JS.gt _ _); reflexivity.
  - intros inputs' He. subst r. rewrite !Hbase, He. reflexivity.
Qed.

(** C7 -- Goal-based horizon policy: when the two pools, each compounded at
    its own rate over [timeHorizon], sum to at least [targetFINumber] (a
    finite number), the required contribution, [yearsToFI] and
    [totalMonthsToFI] are 0; when they fall short, [yearsToFI] is the whole
    [timeHorizon]. *)
Theorem goal_based_horizon_policy (inputs : FinancialInputs) :
  let r := calculateFinancialIndependence pow_approx inputs GoalBased in
  let pools :=
    calculateFutureValue pow_approx (currentSavings inputs)
      (JS.or_undefined (savingsInterestRate inputs) 0) (JS.of_Z (timeHorizon inputs)) +
    calculateFutureValue pow_approx (JS.or_undefined (currentInvestments inputs) 0)
      (annualReturn inputs) (JS.of_Z (timeHorizon inputs)) in
  (JS.isFinite (targetFINumber inputs) = true ->
   JS.ge pools (targetFINumber inputs) = true ->
   requiredMonthlySavings r = 0 /\ yearsToFI r = 0 /\ totalMonthsToFI r = 0) /\
  (JS.gt (targetFINumber inputs) pools = true ->
   yearsToFI r = JS.of_Z (timeHorizon inputs)).
Proof.
  intros r pools. subst r.
  cbn [calculateFinancialIndependence]. unfold calculateGoalBased.
  fold pools. split.
  - intros Hfin Hge.
    assert (Hneed : (targetFINumber inputs - pools <=? 0) = true).
    { apply FloatFacts.sub_nonpos; [exact Hge |].
      apply FloatFacts.is_finite_not_infinity. exact Hfin. }
    unfold JS.gt. rewrite (FloatFacts.leb_zero_not_gt _ Hneed), Hneed.
    cbn [requiredMonthlySavings yearsToFI totalMonthsToFI]. repeat split; reflexivity.
  - intros Hshort.
    rewrite (FloatFacts.sub_pos _ _ Hshort).
    destruct (JS.gt (targetFINumber inputs - pools) 0); reflexivity.
Qed.

(** The target has to be finite for the first half: an infinite target met
    by infinite savings leaves [Infinity - Infinity], a NaN, as the amount
    needed, and the horizon is reported.  The data model excludes such
    inputs. *)
Remark infinite_target_is_not_met :
  let inputs := exampleInputs infinity infinity 1 None in
  let r := calculateFinancialIndependence pow_approx inputs GoalBased in
  JS.ge (currentSavings inputs) (targetFINumber inputs) = true /\
  requiredMonthlySavings r = 0 /\ yearsToFI r = 1.
Proof. vm_compute. repeat split; reflexivity. Qed.

(** C8, as the code has it -- in goal-based and time-based mode the suggested
    amounts are [requiredMonthlySavings * 0.3] and [requiredMonthlySavings *
    0.7]; in contribution-based mode they are the user's own [monthlySavings]
    and [monthlyInvestment] (0 when absent), and [requiredMonthlySavings] is
    their sum. *)
Theorem suggested_split_by_mode (inputs : FinancialInputs) :
  (let r := calculateFinancialIndependence pow_approx inputs GoalBased in
   suggestedMonthlySavings r = Some (requiredMonthlySavings r * 0.3) /\
   suggestedMonthlyInvestment r = Some (requiredMonthlySavings r * 0.7)) /\
  (let r := calculateFinancialIndependence pow_approx inputs TimeBased in
   suggestedMonthlySavings r = Some (requiredMonthlySavings r * 0.3) /\
   suggestedMonthlyInvestment r = Some (requiredMonthlySavings r * 0.7)) /\
  (let r := calculateFinancialIndependence pow_approx inputs ContributionBased in
   suggestedMonthlySavings r = Some (JS.or_undefined (monthlySavings inputs) 0) /\
   suggestedMonthlyInvestment r = Some (JS.or_undefined (monthlyInvestment inputs) 0) /\
   requiredMonthlySavings r =
     JS.or_undefined (monthlySavings inputs) 0 +
     JS.or_undefined (monthlyInvestment inputs) 0).
Proof.
  cbn [calculateFinancialIndependence]. repeat split.
  - unfold calculateGoalBased. destruct (JS.gt _ _); reflexivity.
  - unfold calculateGoalBased. destruct (JS.gt _ _); reflexivity.
  - unfold calculateTimeBasedStrategy. destruct (JS.gt _ _); reflexivity.
  - unfold calculateTimeBasedStrategy. destruct (JS.gt _ _); reflexivity.
  - unfold calculateContributionTimeline. destruct (JS.ge _ _); [reflexivity |].
    destruct (searchMonths _); reflexivity.
  - unfold calculateContributionTimeline. destruct (JS.ge _ _); [reflexivity |].
    destruct (searchMonths _); reflexivity.
  - unfold calculateContributionTimeline. destruct (JS.ge _ _); [reflexivity |].
    destruct (searchMonths _); reflexivity.
Qed.

(** C10 -- Duration decomposition: in every mode, a finite [totalMonthsToFI]
    equals [yearsToFI * 12 + monthsToFI], and [monthsToFI] is not negative. *)
Theorem duration_decomposition (inputs : FinancialInputs) (mode : Mode) :
  let r := calculateFinancialIndependence pow_approx inputs mode in
  JS.isFinite (totalMonthsToFI r) = true ->
  (yearsToFI r * 12 + monthsToFI r =? totalMonthsToFI r) = true /\
  (0 <=? monthsToFI r) = true.
Proof.
  intros r. subst r. destruct mode; cbn [calculateFinancialIndependence].
  - unfold calculateGoalBased. destruct (JS.gt _ _);
      cbn [totalMonthsToFI yearsToFI monthsToFI]; intros Hfin;
      (split; [apply FloatFacts.add_zero_eqb, FloatFacts.is_finite_not_nan, Hfin
              | reflexivity]).
  - unfold calculateTimeBasedStrategy. destruct (JS.gt _ _);
      cbn [totalMonthsToFI yearsToFI monthsToFI]; intros Hfin;
      (split; [apply FloatFacts.add_zero_eqb, FloatFacts.is_finite_not_nan, Hfin
              | reflexivity]).
  - unfold calculateContributionTimeline. destruct (JS.ge _ _).
    + intros _. split; reflexivity.
    + pose proof (searchMonths_range (targetReached pow_approx inputs)) as Hrange.
      destruct (searchMonths (targetReached pow_approx inputs)) as [result found].
      cbn [fst] in Hrange. cbn [totalMonthsToFI yearsToFI monthsToFI].
      destruct found; [intros _; apply month_count_splits, Hrange |].
      intros Hfin. discriminate Hfin.
Qed.

(** The search branch of [calculateTimelineToFI] (a monthly saving other than
    0) reports the least month as well, and splits it into years and months
    in the same way. *)
Lemma timeline_to_fi_months_least
    (currentSavings monthlySavings targetAmount annualRate : float) :
  let reached :=
    timelineReached pow_approx currentSavings monthlySavings targetAmount
      (annualRate / 12) in
  let t :=
    calculateTimelineToFI pow_approx log_approx
      currentSavings monthlySavings targetAmount annualRate in
  (monthlySavings =? 0) = false ->
  (forall m m', (0 <= m)%Z -> (m <= m')%Z -> (m' <= 1200)%Z ->
     reached m = true -> reached m' = true) ->
  (exists m, (0 <= m <= 1200)%Z /\ reached m = true) ->
  exists n,
    totalMonths t = JS.of_Z n /\ (0 <= n <= 1200)%Z /\ reached n = true /\
    (forall m, (0 <= m < n)%Z -> reached m = false).
Proof.
  intros reached t Hms Hmono Hex. subst t. unfold calculateTimelineToFI.
  rewrite Hms.
  destruct (searchMonths_least reached Hmono Hex) as (n & Hs & Hn & Hr & Hleast).
  fold reached. rewrite Hs. cbn [fst totalMonths]. exists n. auto.
Qed.

Lemma timeline_to_fi_decomposition
    (currentSavings monthlySavings targetAmount annualRate : float) :
  let t :=
    calculateTimelineToFI pow_approx log_approx
      currentSavings monthlySavings targetAmount annualRate in
  (monthlySavings =? 0) = false ->
  (years t * 12 + months t =? totalMonths t) = true /\ (0 <=? months t) = true.
Proof.
  intros t Hms. subst t. unfold calculateTimelineToFI. rewrite Hms.
  cbn [years months totalMonths]. apply month_count_splits, searchMonths_range.
Qed.

(** The time-based strategy forms the same unguarded factor as the
    goal-based one. *)
Lemma time_based_zero_rate_is_nan (inputs : FinancialInputs) :
  currentSavings inputs = 0 ->
  JS.or_undefined (currentInvestments inputs) 0 = 0 ->
  annualReturn inputs = 0 ->
  JS.or_undefined (savingsInterestRate inputs) 0 = 0 ->
  JS.gt (calculateInflationAdjustedAmount pow_approx (monthlyExpenses inputs * 12 * 25)
           (inflationRate inputs) (JS.of_Z (timeHorizon inputs))) 0 = true ->
  (1 <= timeHorizon inputs <= 100)%Z ->
  requiredMonthlySavings (calculateFinancialIndependence pow_approx inputs TimeBased) = nan.
Proof.
  intros Hs Hi Hr Hsr Ht Hh.
  cbn [calculateFinancialIndependence]. unfold calculateTimeBasedStrategy.
  unfold calculateFutureValue, fvFactor.
  rewrite Hs, Hi, Hr, Hsr.
  change (1 + 0) with 1. change (0 / 12) with 0. change (1 + 0) with 1.
  destruct (pow_one_horizon (timeHorizon inputs) ltac:(lia)) as [-> ->].
  change (0 * 1 + 0 * 1) with 0.
  rewrite FloatFacts.sub_zero, Ht.
  change ((1 - 1) / 0) with nan.
  change (0.3 * nan + 0.7 * nan) with nan.
  cbn [requiredMonthlySavings]. apply FloatFacts.div_nan_r.
Qed.

(** ** The timeline generator *)

Lemma advanceMonths_add (a b : nat) (sr sc ir ic saved invested : float) :
  advanceMonths (a + b) sr sc ir ic saved invested =
  advanceMonths b sr sc ir ic
    (fst (advanceMonths a sr sc ir ic saved invested))
    (snd (advanceMonths a sr sc ir ic saved invested)).
Proof.
  revert saved invested.
  induction a as [| a IH]; intros saved invested; [reflexivity |].
  cbn [Nat.add advanceMonths]. apply IH.
Qed.

(** The loop yields one sample per turn: the year counts up from its start,
    the assets are those held after 12 steps per year elapsed. *)
Lemma timelineLoop_samples (turns : nat) :
  forall (start : Z) (targetAmount inflation sr sc ir ic saved invested : float),
  timelineLoop pow_approx turns start targetAmount inflation sr sc ir ic saved invested =
  map (fun k : nat =>
         {| year := (start + Z.of_nat k)%Z;
            savings :=
              JS.Math_round
                (snd (advanceMonths (12 * k) sr sc ir ic saved invested) +
                 fst (advanceMonths (12 * k) sr sc ir ic saved invested));
            chartTarget :=
              targetAmount *
              JS.Math_pow pow_approx (1 + inflation) (JS.of_Z (start + Z.of_nat k)) |})
      (seq 0 turns).
Proof.
  induction turns as [| turns IH]; intros; [reflexivity |].
  cbn [timelineLoop].
  destruct (advanceMonths 12 sr sc ir ic saved invested) as [saved' invested'] eqn:Hstep.
  rewrite IH. cbn [seq map]. f_equal.
  - unfold calculateInflationAdjustedAmount.
    replace (start + Z.of_nat 0)%Z with start by lia. reflexivity.
  - rewrite <- seq_shift, map_map. apply map_ext. intros k.
    replace (12 * S k)%nat with (12 + 12 * k)%nat by lia.
    rewrite (advanceMonths_add 12 (12 * k)), Hstep. cbn [fst snd].
    replace (start + 1 + Z.of_nat k)%Z with (start + Z.of_nat (S k))%Z by lia.
    reflexivity.
Qed.

(** The series as a whole: one sample per year of [chartYears], each with the
    rounded assets of that year and the unrounded, annually inflated target. *)
Lemma generateTimelineData_samples
    (inputs : FinancialInputs) (mode : Mode) (results : option CalculationResults) :
  generateTimelineData pow_approx inputs mode results =
  map (fun y : Z =>
         {| year := y;
            savings :=
              JS.Math_round
                (snd (poolsAfter inputs mode results (12 * Z.to_nat y)) +
                 fst (poolsAfter inputs mode results (12 * Z.to_nat y)));
            chartTarget :=
              timelineTarget inputs mode results *
              JS.Math_pow pow_approx (1 + inflationRate inputs) (JS.of_Z y) |})
      (chartYears (yearsToProject inputs mode results)).
Proof.
  assert (Hloop :
    generateTimelineData pow_approx inputs mode results =
    timelineLoop pow_approx (Z.to_nat (yearsToProject inputs mode results + 1)) 0%Z
      (timelineTarget inputs mode results) (inflationRate inputs)
      (JS.or_undefined (savingsInterestRate inputs) 0 / 12)
      (fst (timelineContributions inputs mode results))
      (annualReturn inputs / 12)
      (snd (timelineContributions inputs mode results))
      (currentSavings inputs) (JS.or_undefined (currentInvestments inputs) 0)).
  { unfold generateTimelineData, yearsToProject, timelineTarget, timelineContributions.
    destruct mode, results as [r |]; try reflexivity.
    destruct (baseFINumber r) as [b |]; [| reflexivity].
    cbn [JS.or_undefined fst snd]. unfold JS.or.
    destruct (JS.truthy b); reflexivity. }
  rewrite Hloop. unfold chartYears, poolsAfter.
  rewrite timelineLoop_samples, map_map. apply map_ext. intros k.
  rewrite Nat2Z.id. reflexivity.
Qed.

Lemma generateTimelineData_years
    (inputs : FinancialInputs) (mode : Mode) (results : option CalculationResults) :
  map year (generateTimelineData pow_approx inputs mode results) =
  chartYears (yearsToProject inputs mode results).
Proof.
  rewrite generateTimelineData_samples, map_map. cbn [year]. apply map_id.
Qed.

(** [Math.round] gives the nearest whole number. *)
Lemma round_half_up_nearest (n k : Z) :
  (0 <= k)%Z ->
  ((2 * JS.round_half_up n k - 1) * 2 ^ k <= 2 * n <
   (2 * JS.round_half_up n k + 1) * 2 ^ k)%Z.
Proof.
  intros Hk. unfold JS.round_half_up.
  assert (Hp : (0 < 2 ^ k)%Z) by (apply Z.pow_pos_nonneg; lia).
  assert (Hs : (2 ^ (k + 1) = 2 * 2 ^ k)%Z) by (rewrite Z.pow_add_r by lia; lia).
  pose proof (Z.div_mod (2 * n + 2 ^ k) (2 ^ (k + 1)) ltac:(lia)) as Hd.
  pose proof (Z.mod_pos_bound (2 * n + 2 ^ k) (2 ^ (k + 1)) ltac:(lia)) as Hm.
  rewrite Hs in *. nia.
Qed.

Lemma Math_round_nearest (x : float) : nearest_whole x (JS.Math_round x).
Proof.
  unfold nearest_whole, JS.Math_round.
  pose proof (Prim2SF_valid x) as Hv.
  destruct (Prim2SF x) as [s | s | | s m e]; try reflexivity.
  destruct (0 <=? e)%Z eqn:He; [reflexivity |].
  apply Z.leb_gt in He.
  exists (JS.round_half_up (JS.signed s m) (- e)). split; [| reflexivity].
  apply round_half_up_nearest. lia.
Qed.

(** The rounded value of a finite number has no fractional part. *)
Lemma Math_round_is_integer (x : float) :
  is_finite x = true -> JS.is_integer (JS.Math_round x) = true.
Proof.
  intros Hfin.
  pose proof (FloatFacts.is_finite_not_nan x Hfin) as Hnan.
  pose proof (FloatFacts.is_finite_not_infinity x Hfin) as Hinf.
  pose proof (Prim2SF_valid x) as Hv.
  unfold JS.Math_round.
  destruct (Prim2SF x) as [s | s | | s m e] eqn:E.
  - unfold JS.is_integer. rewrite E. reflexivity.
  - exfalso. exact (FloatFacts.is_infinity_false x s Hinf E).
  - apply FloatFacts.is_nan_spec in E. congruence.
  - destruct (0 <=? e)%Z eqn:He.
    + unfold JS.is_integer. rewrite E, He. reflexivity.
    + apply Z.leb_gt in He.
      destruct (JS.round_half_up (JS.signed s m) (- e) =? 0)%Z;
        [destruct s; reflexivity |].
      apply FloatFacts.is_integer_of_Z.
      pose proof (round_half_up_nearest (JS.signed s m) (- e) ltac:(lia)) as Hz.
      apply FloatFacts.valid_finite_canonical in Hv as (_ & Hd & _).
      pose proof (FloatFacts.digits2_pos_bounds m) as [_ Hm].
      assert (Hp : (2 ^ Zpos (digits2_pos m) <= 2 ^ prec)%Z)
        by (apply Z.pow_le_mono_r; lia).
      assert (Hk : (2 ^ 1 <= 2 ^ (- e))%Z) by (apply Z.pow_le_mono_r; lia).
      change (2 ^ 1)%Z with 2%Z in Hk.
      assert (Hn : (Z.abs (JS.signed s m) < 2 ^ prec)%Z)
        by (unfold JS.signed; destruct s; lia).
      set (z := JS.round_half_up (JS.signed s m) (- e)) in *.
      set (n := JS.signed s m) in *. set (P := (2 ^ (- e))%Z) in *.
      set (B := (2 ^ prec)%Z) in *.
      assert (HB : (0 < B)%Z) by (unfold B; apply Z.pow_pos_nonneg; unfold prec; lia).
      apply Z.abs_lt. apply Z.abs_lt in Hn. split; nia.
Qed.

(** A rounded value that is finite has no fractional part. *)
Lemma Math_round_finite_is_integer (x : float) :
  JS.isFinite (JS.Math_round x) = true -> JS.is_integer (JS.Math_round x) = true.
Proof.
  intros Hfin. assert (Hx : is_finite x = true); [| apply Math_round_is_integer, Hx].
  unfold JS.Math_round in Hfin.
  destruct (Prim2SF x) as [s | s | | s m e] eqn:E; try exact Hfin.
  unfold is_finite.
  assert (Hn : is_nan x = false).
  { destruct (is_nan x) eqn:Hn; [| reflexivity].
    apply FloatFacts.is_nan_spec in Hn. congruence. }
  assert (Hi : is_infinity x = false).
  { unfold is_infinity. rewrite eqb_spec, abs_spec, E. reflexivity. }
  rewrite Hn, Hi. reflexivity.
Qed.

(** The target the chart starts from, when the results are those of the
    strategy of the same mode. *)
Lemma timelineTarget_of_results (inputs : FinancialInputs) (mode : Mode) :
  timelineTarget inputs mode
    (Some (calculateFinancialIndependence pow_approx inputs mode)) =
  match mode with
  | GoalBased => targetFINumber inputs
  | TimeBased => monthlyExpenses inputs * 12 * 25
  | ContributionBased => JS.or (baseTarget inputs) (targetFINumber inputs)
  end.
Proof.
  destruct mode; unfold timelineTarget; cbn [calculateFinancialIndependence].
  - reflexivity.
  - rewrite (proj1 (time_based_baseline_aux inputs)).
    cbn [JS.or_undefined]. unfold JS.or.
    destruct (JS.truthy (monthlyExpenses inputs * 12 * 25)); reflexivity.
  - rewrite (proj1 (contribution_base_aux inputs)). reflexivity.
Qed.

(** C9, as the code has it -- Timeline output conventions, for every call of
    the generator, whatever results it is given (none, those of the strategy
    of the mode, or those of another mode or of other inputs).  The series
    has one sample for each year from 0 to the horizon of the chart, which
    is at least [timeHorizon].  Every sample carries the assets of its year
    rounded to the nearest whole number, and a target that is not rounded:
    a baseline times [(1 + inflationRate)] to the power of the year of the
    sample (the annual rate, not the monthly-equivalent one).  The baseline
    is [targetFINumber] in goal-based mode and whenever no results are given;
    with results it is their [baseFINumber], replaced when absent, 0 or
    [NaN] by [monthlyExpenses * 12 * 25] in time-based mode and by
    [targetFINumber] in contribution-based mode.  With the results of the
    strategy of the same mode this is the baseline of the mode. *)
Theorem timeline_sample_conventions
    (inputs : FinancialInputs) (mode : Mode) (results : option CalculationResults) :
  let series := generateTimelineData pow_approx inputs mode results in
  let otherwise (b : option float) (other : float) :=
    match b with
    | Some v => if is_zero v || is_nan v then other else v
    | None => other
    end in
  let baseline (given : option CalculationResults) :=
    match mode, given with
    | GoalBased, _ => targetFINumber inputs
    | TimeBased, Some r => otherwise (baseFINumber r) (monthlyExpenses inputs * 12 * 25)
    | ContributionBased, Some r => otherwise (baseFINumber r) (targetFINumber inputs)
    | _, None => targetFINumber inputs
    end in
  map year series = chartYears (yearsToProject inputs mode results) /\
  length series = Z.to_nat (yearsToProject inputs mode results + 1) /\
  (timeHorizon inputs <= yearsToProject inputs mode results)%Z /\
  Forall
    (fun p : TimelinePoint =>
       nearest_whole
         (snd (poolsAfter inputs mode results (12 * Z.to_nat (year p))) +
          fst (poolsAfter inputs mode results (12 * Z.to_nat (year p))))
         (savings p) /\
       (JS.isFinite (savings p) = true -> JS.is_integer (savings p) = true) /\
       chartTarget p =
         baseline results *
         JS.Math_pow pow_approx (1 + inflationRate inputs) (JS.of_Z (year p)))
    series /\
  baseline (Some (calculateFinancialIndependence pow_approx inputs mode)) =
    match mode with
    | GoalBased => targetFINumber inputs
    | TimeBased => monthlyExpenses inputs * 12 * 25
    | ContributionBased => JS.or (baseTarget inputs) (targetFINumber inputs)
    end.
Proof.
  intros series otherwise baseline.
  assert (Hb : forall given, timelineTarget inputs mode given = baseline given).
  { intros given. subst baseline otherwise. unfold timelineTarget.
    destruct mode, given as [r |]; try reflexivity;
      destruct (baseFINumber r) as [v |]; try reflexivity;
      cbn [JS.or_undefined]; unfold JS.or, JS.truthy;
      destruct (is_zero v || is_nan v); reflexivity. }
  subst series. repeat split.
  - apply generateTimelineData_years.
  - rewrite generateTimelineData_samples, length_map. unfold chartYears.
    rewrite length_map, length_seq. reflexivity.
  - unfold yearsToProject. destruct mode, results; lia.
  - rewrite generateTimelineData_samples. apply Forall_map, Forall_forall.
    intros y _. cbn [year savings chartTarget]. repeat split.
    + apply Math_round_nearest.
    + apply Math_round_finite_is_integer.
    + rewrite Hb. reflexivity.
  - rewrite <- Hb. apply timelineTarget_of_results.
Qed.

(** In contribution-based mode a baseline that is a non-zero number stands
    as it is in the chart. *)
Lemma contribution_chart_baseline (inputs : FinancialInputs) :
  JS.truthy (baseTarget inputs) = true ->
  JS.or (baseTarget inputs) (targetFINumber inputs) = baseTarget inputs.
Proof. intros H. unfold JS.or. rewrite H. reflexivity. Qed.

(** Whole years below 101 pass through [Math.ceil] unchanged. *)
Lemma ceil_of_whole_years (n : Z) :
  (0 <= n <= 1200)%Z ->
  JS.isFinite (JS.of_Z (n / 12)) = true /\
  JS.to_integer (JS.Math_ceil (JS.of_Z (n / 12))) = (n / 12)%Z.
Proof.
  intros Hn.
  apply (forallb_months
    (fun n => JS.isFinite (JS.of_Z (n / 12))
              && (JS.to_integer (JS.Math_ceil (JS.of_Z (n / 12))) =? n / 12)%Z))
    in Hn; [| vm_compute; reflexivity].
  apply andb_true_iff in Hn as [H1 H2]. split; [exact H1 | apply Z.eqb_eq, H2].
Qed.

(** The horizon of the chart.  In goal-based and time-based mode it is
    [timeHorizon].  In contribution-based mode, with the results of the
    strategy, it is the larger of [timeHorizon] and the whole years of the
    time to the goal, [floor (months / 12)]: [Math.ceil] is applied to
    [yearsToFI], which is whole already, and [monthsToFI] is not looked at. *)
Lemma chart_horizon (inputs : FinancialInputs) (results : option CalculationResults) :
  yearsToProject inputs GoalBased results = timeHorizon inputs /\
  yearsToProject inputs TimeBased results = timeHorizon inputs /\
  yearsToProject inputs ContributionBased
    (Some (calculateFinancialIndependence pow_approx inputs ContributionBased)) =
    (if targetReached pow_approx inputs 0 then Z.max 0 (timeHorizon inputs)
     else
       let '(n, found) := searchMonths (targetReached pow_approx inputs) in
       if found then Z.max (n / 12) (timeHorizon inputs) else timeHorizon inputs).
Proof.
  repeat split.
  cbn [calculateFinancialIndependence].
  unfold yearsToProject, projectedYearsFromResults, calculateContributionTimeline.
  fold (targetReached pow_approx inputs 0).
  destruct (targetReached pow_approx inputs 0); [reflexivity |].
  pose proof (searchMonths_range (targetReached pow_approx inputs)) as Hrange.
  destruct (searchMonths (targetReached pow_approx inputs)) as [n found].
  cbn [fst] in Hrange. cbn [yearsToFI].
  destruct found.
  - destruct (ceil_of_whole_years n Hrange) as [-> ->]. reflexivity.
  - change (JS.isFinite infinity) with false. cbv iota. apply Z.max_id.
Qed.

(** C5 -- Timeline horizon.  The series has one sample per whole year from 0
    to the horizon of [chart_horizon].  On [thirteenMonthInputs] the goal is
    reached after 13 months (1 year and 1 month, 2 years when rounded up)
    while [timeHorizon] is 1: the chart stops at year 1, one year short of
    the horizon the claim gives. *)
Theorem timeline_horizon_drops_months :
  let r := calculateFinancialIndependence pow_approx thirteenMonthInputs ContributionBased in
  totalMonthsToFI r = 13 /\
  yearsToFI r = 1 /\
  monthsToFI r = 1 /\
  timeHorizon thirteenMonthInputs = 1%Z /\
  map year (generateTimelineData pow_approx thirteenMonthInputs ContributionBased (Some r)) =
    [0; 1]%Z.
Proof. vm_compute. repeat split; reflexivity. Qed.

End Claims.

(** The binary64 products [x * 0.3] and [x * 0.7] need not add up to [x]. *)
Remark split_sum_is_rounded :
  (3 * 0.3 + 3 * 0.7 =? 3)%float = false /\
  (3 * 0.3 + 3 * 0.7)%float = 2.9999999999999996%float.
Proof. split; reflexivity. Qed.

(** ** The hypotheses are met: each theorem applied to a concrete input *)

(** C2 on a probe that first succeeds at month 13. *)
Lemma search_returns_least_month_witness :
  exists n,
    searchMonths (probe_reached (fun m => (JS.of_Z m, 13%float))) = (n, true) /\
    (0 <= n <= 1200)%Z /\
    probe_reached (fun m => (JS.of_Z m, 13%float)) n = true /\
    (forall m, (0 <= m < n)%Z ->
       probe_reached (fun m => (JS.of_Z m, 13%float)) m = false) /\
    (n <> 0%Z -> probe_reached (fun m => (JS.of_Z m, 13%float)) (n - 1) = false).
Proof.
  assert (Hall : forall m, (0 <= m <= 1200)%Z ->
            probe_reached (fun m => (JS.of_Z m, 13%float)) m = (13 <=? m)%Z).
  { intros m Hm.
    apply (forallb_months
      (fun m => Bool.eqb (probe_reached (fun m => (JS.of_Z m, 13%float)) m) (13 <=? m)%Z))
      in Hm; [| vm_compute; reflexivity].
    apply Bool.eqb_prop in Hm. exact Hm. }
  apply (search_returns_least_month (fun m => (JS.of_Z m, 13%float))).
  - intros m m' H0 Hle H1200 Hr.
    rewrite Hall in * by lia. apply Z.leb_le. apply Z.leb_le in Hr. lia.
  - exists 13%Z. split; [lia | vm_compute; reflexivity].
Defined.

(** C1 at [zeroRateInputs]: the claim asks for 1200 / 12 = 100. *)
Lemma goal_based_zero_rate_is_nan_witness :
  let r := calculateFinancialIndependence unspecified_pow zeroRateInputs GoalBased in
  requiredMonthlySavings r = nan /\
  (requiredMonthlySavings r =? 1200 / (JS.of_Z 1 * 12))%float = false.
Proof.
  apply (goal_based_zero_rate_is_nan unspecified_pow zeroRateInputs);
    try reflexivity.
  cbn. lia.
Defined.

(** C3 at [idleInputs]. *)
Lemma unreached_target_is_infinite_witness :
  let r := calculateFinancialIndependence unspecified_pow idleInputs ContributionBased in
  let completion := projectPortfolio unspecified_pow idleInputs 1200 in
  yearsToFI r = infinity /\
  totalMonthsToFI r = infinity /\
  JS.isFinite (totalMonthsToFI r) = false /\
  totalFutureSavings r = Some (savingsFutureValue completion) /\
  totalFutureInvestment r = Some (investmentsFutureValue completion) /\
  targetAtCompletion r = Some (target completion).
Proof.
  apply (unreached_target_is_infinite unspecified_pow idleInputs).
  intros m Hm.
  apply (forallb_months (fun m => negb (targetReached unspecified_pow idleInputs m)))
    in Hm; [| vm_compute; reflexivity].
  apply negb_true_iff. exact Hm.
Defined.

(** C7 at [fundedInputs] (target met) and at [zeroRateInputs] (short of it). *)
Lemma goal_based_horizon_policy_witness :
  (let r := calculateFinancialIndependence unspecified_pow fundedInputs GoalBased in
   requiredMonthlySavings r = 0%float /\ yearsToFI r = 0%float /\
   totalMonthsToFI r = 0%float) /\
  (let r := calculateFinancialIndependence unspecified_pow zeroRateInputs GoalBased in
   yearsToFI r = JS.of_Z 1).
Proof.
  split.
  - apply (proj1 (goal_based_horizon_policy unspecified_pow fundedInputs));
      vm_compute; reflexivity.
  - apply (proj2 (goal_based_horizon_policy unspecified_pow zeroRateInputs));
      vm_compute; reflexivity.
Defined.

(** C10 at [thirteenMonthInputs]: 13 months are 1 year and 1 month. *)
Lemma duration_decomposition_witness :
  let r := calculateFinancialIndependence unspecified_pow thirteenMonthInputs
             ContributionBased in
  (yearsToFI r * 12 + monthsToFI r =? totalMonthsToFI r)%float = true /\
  (0 <=? monthsToFI r)%float = true.
Proof.
  apply (duration_decomposition unspecified_pow thirteenMonthInputs ContributionBased).
  vm_compute. reflexivity.
Defined.

(** ** Where the stated split does not hold *)

(** C8 fails in contribution-based mode: on [thirteenMonthInputs] the
    suggested savings are the whole contribution of 1, not 30% of it, and
    the suggested investment is 0, not 70%.  Where the split is applied, the
    two products are rounded one by one: for a required contribution of 3
    they add up to 2.9999999999999996. *)
Lemma contribution_split_counterexample :
  (let r := calculateFinancialIndependence unspecified_pow thirteenMonthInputs
              ContributionBased in
   requiredMonthlySavings r = 1%float /\
   suggestedMonthlySavings r = Some 1%float /\
   suggestedMonthlyInvestment r = Some 0%float /\
   suggestedMonthlySavings r <> Some (requiredMonthlySavings r * 0.3)%float /\
   suggestedMonthlyInvestment r <> Some (requiredMonthlySavings r * 0.7)%float) /\
  (let required := 3%float in
   (required * 0.3 + required * 0.7 =? required)%float = false).
Proof.
  split; [| reflexivity].
  vm_compute. repeat split; try reflexivity; intros H; inversion H as [E];
    apply FloatAxioms.Leibniz.eqb_spec in E; vm_compute in E; discriminate E.
Qed.

(** ** Where the baseline of the chart is not that of the mode *)

(** C9 as stated fails for calls without results or with results of another
    mode.  On [expensesBesideTargetInputs] the baseline of time-based mode is
    1 * 12 * 25 = 300, and the chart of the mode's own results has the
    targets 300 and 300; without results, and with the results left over
    from contribution-based mode, the targets are 13 and 13, the stated
    [targetFINumber]. *)
Lemma timeline_baseline_counterexample :
  let inputs := expensesBesideTargetInputs in
  let own := calculateFinancialIndependence unspecified_pow inputs TimeBased in
  let stale := calculateFinancialIndependence unspecified_pow inputs ContributionBased in
  (monthlyExpenses inputs * 12 * 25)%float = 300%float /\
  map chartTarget (generateTimelineData unspecified_pow inputs TimeBased (Some own)) =
    [300; 300]%float /\
  map chartTarget (generateTimelineData unspecified_pow inputs TimeBased None) =
    [13; 13]%float /\
  map chartTarget (generateTimelineData unspecified_pow inputs TimeBased (Some stale)) =
    [13; 13]%float /\
  ~ Forall
      (fun p : TimelinePoint =>
         chartTarget p =
         (monthlyExpenses inputs * 12 * 25 *
          JS.Math_pow unspecified_pow (1 + inflationRate inputs) (JS.of_Z (year p)))%float)
      (generateTimelineData unspecified_pow inputs TimeBased None).
Proof.
  cbv zeta.
  split; [vm_compute; reflexivity |].
  split; [vm_compute; reflexivity |].
  split; [vm_compute; reflexivity |].
  split; [vm_compute; reflexivity |].
  assert (Hseries :
    generateTimelineData unspecified_pow expensesBesideTargetInputs TimeBased None =
    [ {| year := 0; savings := 0; chartTarget := 13 |};
      {| year := 1; savings := 0; chartTarget := 13 |} ])
    by (vm_compute; reflexivity).
  rewrite Hseries. intros H. inversion H as [| p series Hhead Htail]; subst.
  cbn [chartTarget year] in Hhead.
  apply FloatAxioms.Leibniz.eqb_spec in Hhead. vm_compute in Hhead. discriminate Hhead.
Qed.

(** * Further facts about binary64 arithmetic *)

Module FloatArith.

Local Open Scope Z_scope.

Local Abbreviation emin := (SpecFloat.emin prec emax).
Local Abbreviation fexp := (SpecFloat.fexp prec emax).

Lemma iter_pos_swap {A : Type} (f : A -> A) (p : positive) :
  forall x, iter_pos f p (f x) = f (iter_pos f p x).
Proof.
  induction p as [p IH | p IH |]; intros x; cbn [iter_pos].
  - rewrite !IH. reflexivity.
  - rewrite !IH. reflexivity.
  - reflexivity.
Qed.

Lemma iter_pos_succ {A : Type} (f : A -> A) (p : positive) (x : A) :
  iter_pos f (Pos.succ p) x = iter_pos f p (f x).
Proof.
  revert x. induction p as [p IH | p IH |]; intros x; cbn [iter_pos Pos.succ].
  - rewrite !IH. rewrite !iter_pos_swap. reflexivity.
  - reflexivity.
  - reflexivity.
Qed.

(** Shifting out the zero bits that a multiplication by a power of two
    appended gives the mantissa back, with nothing to round. *)
Lemma shr_iter_xO (m k : positive) :
  iter_pos shr_1 k
    {| shr_m := Zpos (Pos.iter xO m k); shr_r := false; shr_s := false |} =
  {| shr_m := Zpos m; shr_r := false; shr_s := false |}.
Proof.
  induction k as [| k IH] using Pos.peano_ind.
  - reflexivity.
  - rewrite iter_pos_succ, Pos.iter_succ. cbn [shr_1 orb]. exact IH.
Qed.

Lemma valid_finite_fexp (s : bool) (m : positive) (e : Z) :
  valid_binary (S754_finite s m e) = true ->
  fexp (Zpos (digits2_pos m) + e) = e /\ e <= emax - prec.
Proof.
  cbn [SpecFloat.valid_binary]. unfold bounded, canonical_mantissa.
  intros H. apply andb_true_iff in H as [H1 H2].
  apply Z.eqb_eq in H1. apply Z.leb_le in H2. split; assumption.
Qed.

Lemma binary_round_aux_shifted (s : bool) (m k : positive) (e : Z) :
  valid_binary (S754_finite s m e) = true ->
  binary_round_aux prec emax s (Zpos (Pos.iter xO m k)) (e - Zpos k) loc_Exact =
  S754_finite s m e.
Proof.
  intros Hv. destruct (valid_finite_fexp s m e Hv) as [Hf He].
  unfold binary_round_aux, shr_fexp. cbn [Zdigits2 shr_record_of_loc].
  rewrite FloatFacts.digits2_pos_iter_xO.
  replace (Zpos (digits2_pos m + k) + (e - Zpos k)) with (Zpos (digits2_pos m) + e) by lia.
  rewrite Hf.
  replace (e - (e - Zpos k)) with (Zpos k) by lia.
  cbn [shr]. rewrite shr_iter_xO.
  cbn [fst snd shr_m loc_of_shr_record round_nearest_even Zdigits2 shr_record_of_loc].
  replace (e - Zpos k + Zpos k) with e by lia.
  rewrite Hf, Z.sub_diag. cbn [shr fst snd shr_m].
  replace (e <=? emax - prec) with true by (symmetry; apply Z.leb_le; exact He).
  reflexivity.
Qed.

Local Open Scope float_scope.

(** Multiplying by [1] changes nothing. *)
Lemma mul_one (x : float) : x * 1 = x.
Proof.
  apply Prim2SF_inj. rewrite mul_spec.
  pose proof (Prim2SF_valid x) as Hv.
  destruct (Prim2SF x) as [[|] | [|] | | s m e]; try reflexivity.
  change (Prim2SF 1) with (S754_finite false 4503599627370496 (-52)).
  cbn [SF64mul SFmul]. rewrite xorb_false_r.
  rewrite Pos.mul_comm.
  change (4503599627370496 * m)%positive with (Pos.iter xO m 52).
  change (e + -52)%Z with (e - 52)%Z.
  apply binary_round_aux_shifted. exact Hv.
Qed.

Lemma mul_nan_r (x : float) : x * nan = nan.
Proof.
  apply Prim2SF_inj. rewrite mul_spec, FloatFacts.Prim2SF_nan.
  destruct (Prim2SF x); reflexivity.
Qed.

Lemma add_nan_r (x : float) : x + nan = nan.
Proof.
  apply Prim2SF_inj. rewrite add_spec, FloatFacts.Prim2SF_nan.
  destruct (Prim2SF x); reflexivity.
Qed.

Lemma leb_nan_r (x : float) : (x <=? nan) = false.
Proof.
  rewrite leb_spec, FloatFacts.Prim2SF_nan.
  destruct (Prim2SF x); reflexivity.
Qed.

(** The two zeros are the only numbers equal to [0]. *)
Lemma eqb_zero_cases (x : float) : (x =? 0) = true -> x = 0 \/ x = neg_zero.
Proof.
  rewrite eqb_spec, FloatFacts.Prim2SF_zero. intros H.
  destruct (Prim2SF x) as [[|] | [|] | | [|] m e] eqn:E; try discriminate H.
  - right. apply Prim2SF_inj. rewrite E. reflexivity.
  - left. apply Prim2SF_inj. rewrite E. reflexivity.
Qed.

(** Divisions by and of zero. *)
Lemma zero_div_pos (r : float) : (0 <? r) = true -> 0 / r = 0.
Proof.
  rewrite ltb_spec, FloatFacts.Prim2SF_zero. intros H.
  apply Prim2SF_inj. rewrite div_spec, FloatFacts.Prim2SF_zero.
  destruct (Prim2SF r) as [[|] | [|] | | [|] m e]; try discriminate H; reflexivity.
Qed.

Lemma pos_div_zero (a : float) : (0 <? a) = true -> a / 0 = infinity.
Proof.
  rewrite ltb_spec, FloatFacts.Prim2SF_zero. intros H.
  apply Prim2SF_inj. rewrite div_spec, FloatFacts.Prim2SF_zero.
  destruct (Prim2SF a) as [[|] | [|] | | [|] m e]; try discriminate H; reflexivity.
Qed.

(** A sum of a number and a finite number is a number. *)
Lemma add_finite_not_nan (x y : float) :
  is_nan x = false -> is_finite y = true -> is_nan (x + y) = false.
Proof.
  intros Hx Hy.
  pose proof (FloatFacts.is_finite_not_nan y Hy) as Hyn.
  pose proof (FloatFacts.is_finite_not_infinity y Hy) as Hyi.
  destruct (is_nan (x + y)) eqn:Hs; [| reflexivity]. exfalso.
  apply FloatFacts.is_nan_spec in Hs. rewrite add_spec in Hs.
  pose proof (Prim2SF_valid x) as Hvx. pose proof (Prim2SF_valid y) as Hvy.
  destruct (Prim2SF x) as [sx | sx | | sx mx ex] eqn:Ex.
  - destruct (Prim2SF y) as [sy | sy | | sy my ey] eqn:Ey.
    + destruct sx, sy; discriminate Hs.
    + exact (FloatFacts.is_infinity_false y sy Hyi Ey).
    + apply FloatFacts.is_nan_spec in Ey. congruence.
    + discriminate Hs.
  - destruct (Prim2SF y) as [sy | sy | | sy my ey] eqn:Ey.
    + discriminate Hs.
    + exact (FloatFacts.is_infinity_false y sy Hyi Ey).
    + apply FloatFacts.is_nan_spec in Ey. congruence.
    + discriminate Hs.
  - apply FloatFacts.is_nan_spec in Ex. congruence.
  - destruct (Prim2SF y) as [sy | sy | | sy my ey] eqn:Ey.
    + discriminate Hs.
    + exact (FloatFacts.is_infinity_false y sy Hyi Ey).
    + apply FloatFacts.is_nan_spec in Ey. congruence.
    + apply FloatFacts.valid_finite_canonical in Hvx as (Hxe & _).
      apply FloatFacts.valid_finite_canonical in Hvy as (Hye & _).
      unfold SF64add, SFadd in Hs.
      destruct (cond_Zopp sx (Zpos (fst (shl_align mx ex (Z.min ex ey)))) +
                cond_Zopp sy (Zpos (fst (shl_align my ey (Z.min ex ey)))))%Z
        as [| p | p]; cbn [binary_normalize] in Hs.
      * discriminate Hs.
      * destruct (FloatFacts.binary_round_signed false p (Z.min ex ey) ltac:(lia))
          as [(m' & e' & E) | E]; rewrite E in Hs; discriminate Hs.
      * destruct (FloatFacts.binary_round_signed true p (Z.min ex ey) ltac:(lia))
          as [(m' & e' & E) | E]; rewrite E in Hs; discriminate Hs.
Qed.

(** The order of two numbers. *)
Lemma leb_not_gt (a b : float) : (a <=? b) = true -> (b <? a) = false.
Proof.
  rewrite leb_spec, ltb_spec.
  pose proof (FloatFacts.SFcompare_antisym (Prim2SF b) (Prim2SF a)
                (Prim2SF_valid b) (Prim2SF_valid a)) as Ha.
  unfold SFleb, SFltb. rewrite Ha.
  destruct (SFcompare (Prim2SF a) (Prim2SF b)) as [[| |] |]; cbn; congruence.
Qed.

Lemma leb_not_nan (a b : float) : (a <=? b) = true -> is_nan a = false.
Proof.
  intros H. destruct (is_nan a) eqn:Hn; [| reflexivity].
  apply FloatFacts.is_nan_spec in Hn. rewrite leb_spec, Hn in H. discriminate H.
Qed.

End FloatArith.

(** * Further properties of the engine *)

Section SearchAnyProbeFacts.

Local Open Scope Z_scope.

Variable reached : Z -> bool.
Variables low0 high0 result0 : Z.

Lemma searchLoop_probe_outcome (low high result : Z) (found : bool) :
  probe_invariant reached low0 high0 result0 low high result found ->
  probe_outcome reached low0 high0 result0 (searchLoop reached low high result found).
Proof.
  funelim (searchLoop reached low high result found);
    intros (Hlo & Hhi & Hord & Hbelow & Hfound).
  - clear Heq.
    set (mid := (low + high) / 2) in *.
    assert (Hmid : low <= mid <= high)
      by (unfold mid; split;
          [apply Z.div_le_lower_bound | apply Z.div_le_upper_bound]; lia).
    cbv zeta. destruct (reached mid) eqn:Hr.
    + apply H. unfold probe_invariant.
      replace (mid - 1 + 1) with mid by lia. repeat split; try lia; auto.
    + apply H0. unfold probe_invariant.
      replace (mid + 1 - 1) with mid by lia. repeat split; try lia; auto.
  - clear Heq. unfold probe_outcome. cbn [fst snd]. destruct found.
    + destruct Hfound as (-> & Hle & Hr).
      assert (low = high + 1) by lia. subst low.
      repeat split; try lia; auto.
    + destruct Hfound as [-> ->]. split; [reflexivity |]. intros Hle.
      assert (low = high0 + 1) by lia. subst low.
      destruct Hbelow as [Hb | Hb]; [lia |].
      replace (high0 + 1 - 1) with high0 in Hb by lia. exact Hb.
Qed.

End SearchAnyProbeFacts.

(** What the search returns on any probe, monotone or not: a hit is a month
    at which the probe succeeds while it fails one month earlier; no hit
    means that the probe fails at month 1200. *)
Lemma searchMonths_any_probe (reached : Z -> bool) :
  probe_outcome reached 0 1200 1200 (searchMonths reached).
Proof.
  apply searchLoop_probe_outcome. unfold probe_invariant.
  repeat split; lia.
Qed.

(** The month counts of the search are exact numbers. *)
Lemma month_count_is_finite (n : Z) :
  (0 <= n <= 1200)%Z -> JS.isFinite (JS.of_Z n) = true.
Proof.
  intros Hn.
  apply (forallb_months (fun n => JS.isFinite (JS.of_Z n)));
    [vm_compute; reflexivity | exact Hn].
Qed.

Section EngineFacts.

Local Open Scope float_scope.

Variable pow_approx : float -> float -> float.
Variable log_approx : float -> float.

(** [Math.pow] on the arguments that need no approximation. *)
Lemma pow_zero_exponent (base : float) : JS.Math_pow pow_approx base 0 = 1.
Proof. reflexivity. Qed.

Lemma pow_one_finite (exponent : float) :
  is_finite exponent = true -> JS.Math_pow pow_approx 1 exponent = 1.
Proof.
  intros Hfin. unfold JS.Math_pow.
  rewrite (FloatFacts.is_finite_not_nan _ Hfin), (FloatFacts.is_finite_not_infinity _ Hfin).
  destruct (is_zero exponent); reflexivity.
Qed.

(** X1 -- [calculateContributionTimeline]: a finite [totalMonthsToFI] is always
    the count of a month [n] of [0, 1200] at which the projection meets the
    target and, unless [n] is 0, does not meet it one month earlier; the
    years and months reported split [n], and the assets and the target
    reported are those of month [n], the first at least the second.  No
    assumption is made on the probe. *)
Theorem contribution_result_is_a_crossing (inputs : FinancialInputs) :
  let r := calculateFinancialIndependence pow_approx inputs ContributionBased in
  JS.isFinite (totalMonthsToFI r) = true ->
  exists n,
    (0 <= n <= 1200)%Z /\
    totalMonthsToFI r = JS.of_Z n /\
    yearsToFI r = JS.of_Z (n / 12) /\
    monthsToFI r = JS.of_Z (n mod 12) /\
    targetReached pow_approx inputs n = true /\
    (n = 0%Z \/ targetReached pow_approx inputs (n - 1) = false) /\
    futureValueOfCurrentSavings r = total (projectPortfolio pow_approx inputs n) /\
    inflationAdjustedFINumber r = target (projectPortfolio pow_approx inputs n) /\
    JS.ge (futureValueOfCurrentSavings r) (inflationAdjustedFINumber r) = true.
Proof.
  intros r. subst r. cbn [calculateFinancialIndependence].
  unfold calculateContributionTimeline.
  fold (targetReached pow_approx inputs 0).
  destruct (targetReached pow_approx inputs 0) eqn:H0.
  - intros _. exists 0%Z.
    cbn [totalMonthsToFI yearsToFI monthsToFI futureValueOfCurrentSavings
         inflationAdjustedFINumber].
    repeat split; try lia; auto.
  - pose proof (searchMonths_any_probe (targetReached pow_approx inputs)) as Hout.
    destruct (searchMonths (targetReached pow_approx inputs)) as [n found].
    unfold probe_outcome in Hout. cbn [fst snd] in Hout.
    cbn [totalMonthsToFI yearsToFI monthsToFI futureValueOfCurrentSavings
         inflationAdjustedFINumber].
    destruct found; [| intros Hfin; discriminate Hfin].
    intros _. destruct Hout as (Hn & Hr & Hprev).
    exists n. repeat split; try lia; auto.
Qed.

(** X2 -- [calculateContributionTimeline]: when the projection at month 1200,
    the last month probed, meets the target, a finite duration is reported,
    whether or not the probe is monotone. *)
Theorem contribution_reports_reachable_target (inputs : FinancialInputs) :
  targetReached pow_approx inputs 1200 = true ->
  JS.isFinite
    (totalMonthsToFI (calculateFinancialIndependence pow_approx inputs ContributionBased))
  = true.
Proof.
  intros Hlast. cbn [calculateFinancialIndependence].
  unfold calculateContributionTimeline.
  destruct (JS.ge _ _); [reflexivity |].
  pose proof (searchMonths_any_probe (targetReached pow_approx inputs)) as Hout.
  destruct (searchMonths (targetReached pow_approx inputs)) as [n found].
  unfold probe_outcome in Hout. cbn [fst snd] in Hout.
  cbn [totalMonthsToFI]. destruct found.
  - apply month_count_is_finite. lia.
  - destruct Hout as [_ Hfail]. rewrite Hfail in Hlast by lia. discriminate Hlast.
Qed.

(** The search branch of [calculateTimelineToFI] when no month reaches the
    target: the ceiling of the search, split into years and months. *)
Lemma timeline_to_fi_without_hit
    (currentSavings monthlySavings targetAmount annualRate : float) :
  (monthlySavings =? 0) = false ->
  (forall m, (0 <= m <= 1200)%Z ->
     timelineReached pow_approx currentSavings monthlySavings targetAmount
       (annualRate / 12) m = false) ->
  calculateTimelineToFI pow_approx log_approx
    currentSavings monthlySavings targetAmount annualRate =
  {| years := 100; months := 0; totalMonths := 1200 |}.
Proof.
  intros Hms Hnone. unfold calculateTimelineToFI. rewrite Hms.
  rewrite (search_without_hit _ Hnone). reflexivity.
Qed.

(** X3 -- [calculateTimelineToFI] with a monthly saving other than 0 always
    reports a finite month count of [0, 1200], split into years and months;
    when no month of the range reaches the target it reports 100 years,
    0 months, 1200 months: the ceiling of the search, not [Infinity]. *)
Theorem timeline_to_fi_is_bounded
    (currentSavings monthlySavings targetAmount annualRate : float) :
  let reached :=
    timelineReached pow_approx currentSavings monthlySavings targetAmount
      (annualRate / 12) in
  let t :=
    calculateTimelineToFI pow_approx log_approx
      currentSavings monthlySavings targetAmount annualRate in
  (monthlySavings =? 0) = false ->
  JS.isFinite (totalMonths t) = true /\
  (exists n, (0 <= n <= 1200)%Z /\ totalMonths t = JS.of_Z n /\
             years t = JS.of_Z (n / 12) /\ months t = JS.of_Z (n mod 12)) /\
  ((forall m, (0 <= m <= 1200)%Z -> reached m = false) ->
   t = {| years := 100; months := 0; totalMonths := 1200 |}).
Proof.
  intros reached t Hms. repeat split.
  - subst t. unfold calculateTimelineToFI. rewrite Hms.
    cbn [totalMonths]. apply month_count_is_finite, searchMonths_range.
  - subst t. unfold calculateTimelineToFI. rewrite Hms. fold reached.
    exists (fst (searchMonths reached)).
    repeat split; try apply searchMonths_range.
  - intros Hnone. apply timeline_to_fi_without_hit; assumption.
Qed.

(** X4 -- [calculateTimelineToFI] at a rate of 0 with a monthly saving other
    than 0: the probe divides by the monthly rate, every projection is [NaN],
    and the result is 100 years whatever the savings and the target, also
    when the savings exceed the target already. *)
Theorem timeline_to_fi_zero_rate
    (currentSavings monthlySavings targetAmount annualRate : float) :
  (monthlySavings =? 0) = false ->
  (annualRate =? 0) = true ->
  calculateTimelineToFI pow_approx log_approx
    currentSavings monthlySavings targetAmount annualRate =
  {| years := 100; months := 0; totalMonths := 1200 |}.
Proof.
  intros Hms Hrate.
  apply timeline_to_fi_without_hit; [exact Hms |].
  intros m Hm. unfold timelineReached.
  assert (Hfactor :
    (JS.Math_pow pow_approx (1 + annualRate / 12) (JS.of_Z m) - 1) / (annualRate / 12) = nan).
  { destruct (FloatArith.eqb_zero_cases _ Hrate) as [-> | ->].
    - change (1 + 0 / 12) with 1.
      rewrite (proj1 (pow_one_horizon pow_approx m Hm)). reflexivity.
    - change (1 + neg_zero / 12) with 1.
      rewrite (proj1 (pow_one_horizon pow_approx m Hm)). reflexivity. }
  rewrite Hfactor, FloatArith.mul_nan_r, FloatArith.add_nan_r.
  unfold JS.ge. apply FloatArith.leb_nan_r.
Qed.

(** X5 -- [calculateTimelineToFI], search branch: when the probe is monotone
    on [0, 1200] and succeeds somewhere, the month count reported is the
    least month at which the projected savings reach the target, and the
    years and months reported are its quotient and remainder by 12. *)
Theorem timeline_to_fi_least_month
    (currentSavings monthlySavings targetAmount annualRate : float) :
  let reached :=
    timelineReached pow_approx currentSavings monthlySavings targetAmount
      (annualRate / 12) in
  let t :=
    calculateTimelineToFI pow_approx log_approx
      currentSavings monthlySavings targetAmount annualRate in
  (monthlySavings =? 0) = false ->
  (forall m m', (0 <= m)%Z -> (m <= m')%Z -> (m' <= 1200)%Z ->
     reached m = true -> reached m' = true) ->
  (exists m, (0 <= m <= 1200)%Z /\ reached m = true) ->
  exists n,
    (0 <= n <= 1200)%Z /\ reached n = true /\
    (forall m, (0 <= m < n)%Z -> reached m = false) /\
    t = {| years := JS.of_Z (n / 12); months := JS.of_Z (n mod 12);
           totalMonths := JS.of_Z n |}.
Proof.
  intros reached t Hms Hmono Hex. subst t. unfold calculateTimelineToFI.
  rewrite Hms.
  destruct (searchMonths_least reached Hmono Hex) as (n & Hs & Hn & Hr & Hleast).
  fold reached. rewrite Hs. cbn [fst]. exists n. auto.
Qed.

(** X6 -- [calculateRequiredMonthlySavings]: when the current savings grow to
    the target (a finite one) or beyond over the period, nothing is
    required. *)
Theorem required_savings_zero_when_funded
    (targetAmount currentSavings annualRate years : float) :
  JS.ge (calculateFutureValue pow_approx currentSavings annualRate years) targetAmount
    = true ->
  JS.isFinite targetAmount = true ->
  calculateRequiredMonthlySavings pow_approx targetAmount currentSavings annualRate years
    = 0.
Proof.
  intros Hge Hfin. unfold calculateRequiredMonthlySavings.
  rewrite (FloatFacts.sub_nonpos _ _ Hge (FloatFacts.is_finite_not_infinity _ Hfin)).
  reflexivity.
Qed.

(** X7 -- [calculateRequiredMonthlySavings] at a rate of 0: the guard on the
    denominator applies, and the result is the shortfall
    [targetAmount - currentSavings] divided evenly over the months, or 0
    when there is no shortfall. *)
Theorem required_savings_zero_rate
    (targetAmount currentSavings annualRate years : float) :
  (annualRate =? 0) = true ->
  JS.isFinite (years * 12) = true ->
  JS.isFinite years = true ->
  calculateRequiredMonthlySavings pow_approx targetAmount currentSavings annualRate years =
  if targetAmount - currentSavings <=? 0 then 0
  else (targetAmount - currentSavings) / (years * 12).
Proof.
  intros Hrate Hmonths Hyears.
  unfold calculateRequiredMonthlySavings, calculateFutureValue.
  assert (Hone : 1 + annualRate = 1 /\ 1 + annualRate / 12 = 1).
  { destruct (FloatArith.eqb_zero_cases _ Hrate) as [-> | ->]; split; reflexivity. }
  destruct Hone as [-> ->].
  rewrite (pow_one_finite _ Hyears), (pow_one_finite _ Hmonths), FloatArith.mul_one.
  destruct (targetAmount - currentSavings <=? 0); reflexivity.
Qed.

(** X8 -- [calculateFutureValue] and [calculateInflationAdjustedAmount]: over
    zero years, or at a rate of 0 over a finite number of years, the amount
    comes back unchanged, to the last bit. *)
Theorem compounding_leaves_amount (amount rate years : float) :
  is_zero years = true \/ (rate = 0 /\ JS.isFinite years = true) ->
  calculateFutureValue pow_approx amount rate years = amount /\
  calculateInflationAdjustedAmount pow_approx amount rate years = amount.
Proof.
  intros H. unfold calculateFutureValue, calculateInflationAdjustedAmount.
  assert (Hpow : JS.Math_pow pow_approx (1 + rate) years = 1).
  { destruct H as [Hz | [-> Hfin]].
    - unfold JS.Math_pow. rewrite Hz.
      destruct (is_nan years) eqn:Hn; [| reflexivity].
      exfalso. unfold is_zero in Hz. unfold is_nan in Hn.
      rewrite eqb_spec in Hz, Hn.
      destruct (Prim2SF years) as [[|] | [|] | | [|] m e]; discriminate.
    - change (1 + 0) with 1. apply pow_one_finite, Hfin. }
  rewrite Hpow, FloatArith.mul_one. split; reflexivity.
Qed.

(** X9 -- time-based mode without a gap: when the two pools grow to the
    inflated target (not an infinite one) or beyond, nothing is required or
    suggested and the totals are the grown pools, yet the duration reported
    is the whole [timeHorizon], not 0 as in goal-based mode. *)
Theorem time_based_without_gap (inputs : FinancialInputs) :
  let r := calculateFinancialIndependence pow_approx inputs TimeBased in
  let horizon := JS.of_Z (timeHorizon inputs) in
  let cash :=
    calculateFutureValue pow_approx (currentSavings inputs)
      (JS.or_undefined (savingsInterestRate inputs) 0) horizon in
  let invested :=
    calculateFutureValue pow_approx (JS.or_undefined (currentInvestments inputs) 0)
      (annualReturn inputs) horizon in
  let futureFINumber :=
    calculateInflationAdjustedAmount pow_approx (monthlyExpenses inputs * 12 * 25)
      (inflationRate inputs) horizon in
  JS.ge (cash + invested) futureFINumber = true ->
  is_infinity futureFINumber = false ->
  requiredMonthlySavings r = 0 /\
  suggestedMonthlySavings r = Some 0 /\
  suggestedMonthlyInvestment r = Some 0 /\
  totalFutureSavings r = Some cash /\
  totalFutureInvestment r = Some invested /\
  yearsToFI r = horizon /\
  totalMonthsToFI r = horizon * 12.
Proof.
  intros r horizon cash invested futureFINumber Hge Hinf. subst r.
  cbn [calculateFinancialIndependence]. unfold calculateTimeBasedStrategy.
  fold horizon. fold cash. fold invested. fold futureFINumber.
  pose proof (FloatFacts.sub_nonpos _ _ Hge Hinf) as Hgap.
  unfold JS.gt. rewrite (FloatFacts.leb_zero_not_gt _ Hgap).
  cbn [requiredMonthlySavings suggestedMonthlySavings suggestedMonthlyInvestment
       totalFutureSavings totalFutureInvestment yearsToFI totalMonthsToFI].
  repeat split; reflexivity.
Qed.

(** X10 -- goal-based mode with [timeHorizon] 0 (what an emptied field
    parses to) and a shortfall, at positive monthly rates: both annuity
    factors are 0, so the contribution required is [Infinity], the projected
    totals are [NaN], and the duration reported is 0 months. *)
Theorem goal_based_zero_horizon (inputs : FinancialInputs) :
  let r := calculateFinancialIndependence pow_approx inputs GoalBased in
  let pools :=
    currentSavings inputs + JS.or_undefined (currentInvestments inputs) 0 in
  timeHorizon inputs = 0%Z ->
  JS.gt (targetFINumber inputs - pools) 0 = true ->
  JS.gt (JS.or_undefined (savingsInterestRate inputs) 0 / 12) 0 = true ->
  JS.gt (annualReturn inputs / 12) 0 = true ->
  requiredMonthlySavings r = infinity /\
  totalFutureSavings r = Some nan /\
  totalFutureInvestment r = Some nan /\
  yearsToFI r = 0 /\
  totalMonthsToFI r = 0.
Proof.
  intros r pools Hh Hshort Hsr Hir. subst r pools.
  cbn [calculateFinancialIndependence]. unfold calculateGoalBased.
  unfold calculateFutureValue, fvFactor. rewrite Hh.
  change (JS.of_Z 0) with 0. change (0 * 12) with 0.
  rewrite !pow_zero_exponent, !FloatArith.mul_one.
  change (1 - 1) with 0.
  unfold JS.gt in Hsr, Hir.
  rewrite (FloatArith.zero_div_pos _ Hsr), (FloatArith.zero_div_pos _ Hir).
  change (0.3 * 0 + 0.7 * 0) with 0.
  rewrite Hshort.
  unfold JS.gt in Hshort.
  rewrite (FloatFacts.gt_zero_not_leb _ Hshort), (FloatArith.pos_div_zero _ Hshort).
  cbn [requiredMonthlySavings totalFutureSavings totalFutureInvestment
       yearsToFI totalMonthsToFI].
  change (infinity * 0.3 * 0) with nan. change (infinity * 0.7 * 0) with nan.
  rewrite !FloatArith.add_nan_r.
  repeat split; reflexivity.
Qed.

End EngineFacts.

(** * The chart and the results card *)

Section ChartFacts.

Local Open Scope float_scope.

Variable pow_approx : float -> float -> float.


Lemma chartYears_nth (horizon : Z) (k : nat) :
  (Z.of_nat k <= horizon)%Z ->
  nth_error (chartYears horizon) k = Some (Z.of_nat k).
Proof.
  intros Hk. unfold chartYears.
  rewrite nth_error_map, nth_error_seq.
  replace (k <? Z.to_nat (horizon + 1))%nat with true
    by (symmetry; apply Nat.ltb_lt; lia).
  reflexivity.
Qed.


(** X12 -- [TimelineChart] in time-based mode, with the results of the
    strategy: the sample of the year [timeHorizon] is the last of the series,
    and the reference line is drawn at the target of that sample, unless
    that target is 0 or [NaN]. *)
Theorem time_based_reference_line (inputs : FinancialInputs) :
  let r := calculateFinancialIndependence pow_approx inputs TimeBased in
  let samples := generateTimelineData pow_approx inputs TimeBased (Some r) in
  (0 <= timeHorizon inputs)%Z ->
  exists p,
    nth_error samples (Z.to_nat (timeHorizon inputs)) = Some p /\
    length samples = S (Z.to_nat (timeHorizon inputs)) /\
    year p = timeHorizon inputs /\
    (JS.truthy (chartTarget p) = true ->
     Display.targetValue inputs TimeBased (Some r) = chartTarget p).
Proof.
  intros r samples Hh. subst samples.
  rewrite generateTimelineData_samples.
  change (yearsToProject inputs TimeBased (Some r)) with (timeHorizon inputs).
  rewrite nth_error_map, chartYears_nth by lia.
  rewrite Z2Nat.id by lia. cbn [option_map].
  eexists. split; [reflexivity |].
  rewrite length_map. unfold chartYears. rewrite length_map, length_seq.
  split; [lia |]. cbn [year chartTarget]. split; [reflexivity |].
  subst r. rewrite timelineTarget_of_results.
  cbn [calculateFinancialIndependence Display.targetValue].
  assert (Hc : calculatedFINumber (calculateTimeBasedStrategy pow_approx inputs) =
               Some (monthlyExpenses inputs * 12 * 25 *
                     JS.Math_pow pow_approx (1 + inflationRate inputs)
                       (JS.of_Z (timeHorizon inputs)))).
  { unfold calculateTimeBasedStrategy. destruct (JS.gt _ _); reflexivity. }
  rewrite Hc. intros ->. reflexivity.
Qed.

End ChartFacts.

Section DisplayFacts.

Import String.

Local Open Scope float_scope.

Variable pow_approx : float -> float -> float.
Variable toString : float -> Text.text.

(** X13 -- [ResultsDisplay] on a contribution-based result whose month count
    is not finite: the duration reads "not reached within the range of the
    calculation" and the years label reads "N/A". *)
Theorem unreached_result_display (inputs : FinancialInputs) :
  let r := calculateFinancialIndependence pow_approx inputs ContributionBased in
  JS.isFinite (totalMonthsToFI r) = false ->
  Display.timelineText toString r = Display.notReached /\
  Display.yearsLabelText toString r = Text.lit "N/A".
Proof.
  intros r. subst r. cbn [calculateFinancialIndependence].
  unfold calculateContributionTimeline.
  destruct (JS.ge _ _); [intros Hfin; discriminate Hfin |].
  pose proof (searchMonths_range (targetReached pow_approx inputs)) as Hrange.
  destruct (searchMonths (targetReached pow_approx inputs)) as [n found].
  cbn [fst] in Hrange. cbn [totalMonthsToFI]. destruct found.
  - rewrite (month_count_is_finite n Hrange). intros Hfin. discriminate Hfin.
  - intros _. split; reflexivity.
Qed.



End DisplayFacts.

Section DurationDisplay.

Import String.

Local Open Scope float_scope.

Variable pow_approx : float -> float -> float.
Variable toString : float -> Text.text.

Lemma month_count_parts (n : Z) :
  (1 <= n <= 1200)%Z ->
  (JS.of_Z n =? 0) = false /\
  JS.isFinite (JS.of_Z (n / 12)) = true /\
  JS.isFinite (JS.of_Z (n mod 12)) = true /\
  JS.gt (JS.of_Z (n / 12)) 0 = (12 <=? n)%Z /\
  JS.gt (JS.of_Z (n mod 12)) 0 = negb (n mod 12 =? 0)%Z.
Proof.
  intros Hn.
  assert (H : ((n =? 0)%Z
               || (negb (JS.of_Z n =? 0)
                   && JS.isFinite (JS.of_Z (n / 12))
                   && JS.isFinite (JS.of_Z (n mod 12))
                   && Bool.eqb (JS.gt (JS.of_Z (n / 12)) 0) (12 <=? n)%Z
                   && Bool.eqb (JS.gt (JS.of_Z (n mod 12)) 0)
                        (negb (n mod 12 =? 0)%Z))) = true).
  { apply (forallb_months
      (fun n => (n =? 0)%Z
                || (negb (JS.of_Z n =? 0)
                    && JS.isFinite (JS.of_Z (n / 12))
                    && JS.isFinite (JS.of_Z (n mod 12))
                    && Bool.eqb (JS.gt (JS.of_Z (n / 12)) 0) (12 <=? n)%Z
                    && Bool.eqb (JS.gt (JS.of_Z (n mod 12)) 0)
                         (negb (n mod 12 =? 0)%Z))));
      [vm_compute; reflexivity | lia]. }
  replace (n =? 0)%Z with false in H by (symmetry; apply Z.eqb_neq; lia).
  cbn [orb] in H.
  repeat (apply andb_true_iff in H as [H ?]).
  apply negb_true_iff in H.
  repeat split; auto using Bool.eqb_prop.
Qed.

(** The text of a duration of [n] months, as the card shows it. *)
Lemma duration_text (n : Z) (r : CalculationResults) :
  (0 <= n <= 1200)%Z ->
  totalMonthsToFI r = JS.of_Z n ->
  yearsToFI r = JS.of_Z (n / 12) ->
  monthsToFI r = JS.of_Z (n mod 12) ->
  Display.timelineText toString r =
  (let y := toString (JS.of_Z (n / 12)) ++ Text.lit " năm" in
   let m := toString (JS.of_Z (n mod 12)) ++ Text.lit " tháng" in
   if (n =? 0)%Z then Display.achieved
   else if (n <? 12)%Z then m
   else if (n mod 12 =? 0)%Z then y
   else y ++ Text.lit " và " ++ m).
Proof.
  intros Hn Ht Hy Hm. unfold Display.timelineText. rewrite Ht, Hy, Hm.
  destruct (Z.eqb_spec n 0) as [-> | Hz]; [reflexivity |].
  destruct (month_count_parts n ltac:(lia)) as (H0 & Hfy & Hfm & Hgy & Hgm).
  rewrite H0. unfold Display.formatDuration. rewrite Hfy, Hfm, Hgy, Hgm.
  cbn [negb orb]. rewrite Z.ltb_antisym.
  destruct (Z.leb_spec 12 n) as [Hge | Hlt], (Z.eqb_spec (n mod 12) 0) as [E | E];
    cbn [negb app Text.join]; try reflexivity.
  rewrite Z.mod_small in E by lia. lia.
Qed.

(** X15 -- [ResultsDisplay] on a contribution-based result with a finite
    month count [n]: "achieved" for 0, else the whole years and the months
    left over, each left out when it is 0 and joined by " và " when both are
    there. *)
Theorem contribution_duration_display (inputs : FinancialInputs) :
  let r := calculateFinancialIndependence pow_approx inputs ContributionBased in
  JS.isFinite (totalMonthsToFI r) = true ->
  exists n,
    (0 <= n <= 1200)%Z /\
    totalMonthsToFI r = JS.of_Z n /\
    Display.timelineText toString r =
    (let y := toString (JS.of_Z (n / 12)) ++ Text.lit " năm" in
     let m := toString (JS.of_Z (n mod 12)) ++ Text.lit " tháng" in
     if (n =? 0)%Z then Display.achieved
     else if (n <? 12)%Z then m
     else if (n mod 12 =? 0)%Z then y
     else y ++ Text.lit " và " ++ m).
Proof.
  intros r. subst r. cbn [calculateFinancialIndependence].
  unfold calculateContributionTimeline.
  destruct (JS.ge _ _).
  - intros _. exists 0%Z. repeat split; try lia.
  - pose proof (searchMonths_range (targetReached pow_approx inputs)) as Hrange.
    destruct (searchMonths (targetReached pow_approx inputs)) as [n found].
    cbn [fst] in Hrange. cbn [totalMonthsToFI].
    destruct found; [| intros Hfin; discriminate Hfin].
    intros _. exists n. split; [exact Hrange |]. split; [reflexivity |].
    apply duration_text; [exact Hrange | reflexivity | reflexivity | reflexivity].
Qed.

End DurationDisplay.

(** * Properties of the text fields *)

Section TextFacts.

Import Ascii.

(** The separators are not digits, and a digit is not a separator. *)
Lemma digit_not_separator (c : ascii) :
  Text.isDigit c = true ->
  Ascii.eqb c Text.dot = false /\ Ascii.eqb c Text.comma = false.
Proof.
  intros Hd. split.
  - destruct (Ascii.eqb_spec c Text.dot) as [-> | _]; [discriminate Hd | reflexivity].
  - destruct (Ascii.eqb_spec c Text.comma) as [-> | _]; [discriminate Hd | reflexivity].
Qed.

Lemma removeNonDigits_digits (s : Text.text) : Forall (fun c => Text.isDigit c = true) s ->
  Text.removeNonDigits s = s.
Proof.
  unfold Text.removeNonDigits.
  induction 1 as [| c s Hc _ IH]; [reflexivity |].
  cbn [filter]. rewrite Hc, IH. reflexivity.
Qed.

Lemma removeAll_dot_digits (s : Text.text) :
  Forall (fun c => Text.isDigit c = true) s -> Text.removeAll Text.dot s = s.
Proof.
  unfold Text.removeAll.
  induction 1 as [| c s Hc _ IH]; [reflexivity |].
  cbn [filter]. rewrite (proj1 (digit_not_separator c Hc)), IH. reflexivity.
Qed.

Lemma removeNonDigits_are_digits (s : Text.text) :
  Forall (fun c => Text.isDigit c = true) (Text.removeNonDigits s).
Proof.
  apply Forall_forall. intros c Hc. apply filter_In in Hc. apply Hc.
Qed.

Lemma removeNonDigits_idem (s : Text.text) :
  Text.removeNonDigits (Text.removeNonDigits s) = Text.removeNonDigits s.
Proof. apply removeNonDigits_digits, removeNonDigits_are_digits. Qed.

(** The digits of a string, and the string without its dots, are not changed
    by the separators that the regular expression inserts. *)
Lemma insertDotsFrom_digits (s : Text.text) :
  forall prev,
    Text.removeNonDigits (Text.insertDotsFrom prev s) = Text.removeNonDigits s /\
    Text.removeAll Text.dot (Text.insertDotsFrom prev s) = Text.removeAll Text.dot s.
Proof.
  unfold Text.removeNonDigits, Text.removeAll.
  induction s as [| c s IH]; intros prev; cbn [Text.insertDotsFrom].
  - cbn [Text.groupsOfThreeAhead]. rewrite andb_false_r. split; reflexivity.
  - destruct (IH (Some c)) as [IH1 IH2].
    destruct (Text.notWordBoundary prev (hd_error (c :: s)) &&
              Text.groupsOfThreeAhead (c :: s));
      cbn [app filter]; rewrite IH1, IH2; split; reflexivity.
Qed.

(** On a string of digits the lookahead succeeds where the digits left are a
    positive multiple of three. *)
Lemma groupsOfThreeAhead_digits (n : nat) :
  forall s, (length s <= n)%nat -> Forall (fun c => Text.isDigit c = true) s ->
    Text.groupsOfThreeAhead s =
    ((0 <? length s) && (length s mod 3 =? 0))%nat.
Proof.
  induction n as [| n IH]; intros s Hlen Hd.
  - destruct s; [reflexivity | cbn in Hlen; lia].
  - destruct s as [| a [| b [| c rest]]]; try reflexivity.
    inversion Hd as [| ? ? Ha Hd1]; subst.
    inversion Hd1 as [| ? ? Hb Hd2]; subst.
    inversion Hd2 as [| ? ? Hc Hd3]; subst.
    cbn [Text.groupsOfThreeAhead]. rewrite Ha, Hb, Hc. cbn [andb].
    rewrite (IH rest ltac:(cbn [length] in Hlen; lia) Hd3).
    cbn [length].
    replace (S (S (S (length rest))) mod 3)%nat with (length rest mod 3)%nat
      by (change (S (S (S (length rest)))) with (3 + length rest)%nat;
          rewrite <- (Nat.Div0.add_mod_idemp_l 3); reflexivity).
    destruct rest as [| d rest]; [reflexivity |].
    inversion Hd3 as [| ? ? Hdd _]; subst. rewrite Hdd.
    cbn [negb orb length Nat.ltb Nat.leb]. rewrite orb_false_r. reflexivity.
Qed.

(** The same separators, placed by counting the digits that follow. *)
Lemma insertDotsFrom_by_length (s : Text.text) :
  Forall (fun c => Text.isDigit c = true) s ->
  Text.insertDotsFrom None s = dotsByLength s /\
  forall p, Text.isWordChar p = true ->
    Text.insertDotsFrom (Some p) s =
    (if ((0 <? length s) && (length s mod 3 =? 0))%nat then [Text.dot] else []) ++
    dotsByLength s.
Proof.
  induction 1 as [| c s Hc Hs IH].
  - split; [reflexivity |]. intros p Hp. cbn [Text.insertDotsFrom].
    rewrite andb_false_r. reflexivity.
  - assert (Hw : Text.isWordChar c = true)
      by (unfold Text.isWordChar; rewrite Hc; reflexivity).
    destruct IH as [_ IH]. specialize (IH c Hw).
    assert (Hrest : c :: Text.insertDotsFrom (Some c) s = dotsByLength (c :: s)).
    { rewrite IH. cbn [dotsByLength].
      destruct ((0 <? length s) && (length s mod 3 =? 0))%nat; reflexivity. }
    split.
    + cbn [Text.insertDotsFrom hd_error]. unfold Text.notWordBoundary.
      rewrite Hw. cbn [Bool.eqb andb app]. exact Hrest.
    + intros p Hp. cbn [Text.insertDotsFrom hd_error]. unfold Text.notWordBoundary.
      rewrite Hw, Hp. cbn [Bool.eqb andb].
      rewrite (groupsOfThreeAhead_digits (length (c :: s)) (c :: s))
        by (auto using Forall_cons).
      rewrite Hrest. reflexivity.
Qed.

Lemma dotsByLength_short (s : Text.text) :
  (length s <= 3)%nat -> dotsByLength s = s.
Proof.
  destruct s as [| a [| b [| c [| d s]]]]; cbn [length]; intros H;
    try reflexivity; lia.
Qed.

Lemma dotsByLength_app_group (y : Text.text) :
  length y = 3%nat ->
  forall x, x <> [] -> dotsByLength (x ++ y) = dotsByLength x ++ Text.dot :: y.
Proof.
  intros Hy. induction x as [| c x IH]; intros Hx; [congruence |].
  cbn [app dotsByLength]. rewrite length_app, Hy.
  replace ((length x + 3) mod 3)%nat with (length x mod 3)%nat
    by (rewrite <- (Nat.Div0.add_mod_idemp_r (length x) 3); cbn [Nat.modulo];
        rewrite Nat.add_0_r; reflexivity).
  replace (0 <? length x + 3)%nat with true by (symmetry; apply Nat.ltb_lt; lia).
  destruct x as [| c' x].
  - cbn [length app dotsByLength Nat.ltb Nat.leb andb Nat.modulo Nat.eqb].
    rewrite (dotsByLength_short y) by lia. reflexivity.
  - rewrite IH by discriminate.
    replace (0 <? length (c' :: x))%nat with true by reflexivity.
    cbn [andb].
    destruct (length (c' :: x) mod 3 =? 0)%nat; reflexivity.
Qed.

Lemma groupsFromUnits_by_length (n : nat) :
  forall r, (length r <= n)%nat -> rev (dotsByLength (rev r)) = groupsFromUnits r.
Proof.
  induction n as [| n IH]; intros r Hlen.
  - destruct r; [reflexivity | cbn in Hlen; lia].
  - destruct r as [| a [| b [| c [| d rest]]]];
      try (rewrite dotsByLength_short by (rewrite length_rev; cbn; lia);
           rewrite rev_involutive; reflexivity).
    change (groupsFromUnits (a :: b :: c :: d :: rest))
      with (a :: b :: c :: Text.dot :: groupsFromUnits (d :: rest)).
    rewrite <- (IH (d :: rest)) by (cbn [length] in *; lia).
    change (a :: b :: c :: d :: rest) with ([a; b; c] ++ d :: rest).
    rewrite rev_app_distr.
    rewrite dotsByLength_app_group;
      [| reflexivity | intros E; apply (f_equal (@length _)) in E;
                       rewrite length_rev in E; discriminate E].
    rewrite rev_app_distr. reflexivity.
Qed.

(** X16 -- [formatNumberWithDots]: the result is the digits of the argument
    in groups of three counted from the units, from the right, with a ['.']
    between two groups. *)
Theorem formatNumberWithDots_groups_thousands (value : Text.text) :
  Text.formatNumberWithDots value = thousandsGrouped (Text.removeNonDigits value).
Proof.
  unfold Text.formatNumberWithDots, Text.insertDots, thousandsGrouped.
  rewrite (proj1 (insertDotsFrom_by_length _ (removeNonDigits_are_digits value))).
  rewrite <- (groupsFromUnits_by_length _ _ (le_n _)).
  rewrite !rev_involutive. reflexivity.
Qed.

(** What is left of a formatted text without its separators. *)
Lemma formatNumberWithDots_stripped (value : Text.text) :
  Text.removeAll Text.dot (Text.formatNumberWithDots value) = Text.removeNonDigits value /\
  Text.removeNonDigits (Text.formatNumberWithDots value) = Text.removeNonDigits value.
Proof.
  unfold Text.formatNumberWithDots, Text.insertDots.
  destruct (insertDotsFrom_digits (Text.removeNonDigits value) None) as [H1 H2].
  rewrite removeNonDigits_idem in H1. split; [| exact H1].
  rewrite H2. apply removeAll_dot_digits, removeNonDigits_are_digits.
Qed.

(** X17 -- [formatNumberWithDots] round trip: the formatted text has the
    digits of the argument and nothing but those and dots, so removing the
    dots gives the digits back, and formatting a formatted text changes
    nothing. *)
Theorem formatNumberWithDots_round_trip (value : Text.text) :
  Text.removeAll Text.dot (Text.formatNumberWithDots value) = Text.removeNonDigits value /\
  Text.removeNonDigits (Text.formatNumberWithDots value) = Text.removeNonDigits value /\
  Text.formatNumberWithDots (Text.formatNumberWithDots value) =
    Text.formatNumberWithDots value.
Proof.
  destruct (formatNumberWithDots_stripped value) as [H1 H2].
  repeat split; [exact H1 | exact H2 |].
  unfold Text.formatNumberWithDots at 1. rewrite H2. reflexivity.
Qed.

(** Splitting at the dots and joining with commas. *)
Lemma replaceAll_parts (s : Text.text) :
  Text.replaceAll Text.dot Text.comma s =
  integerPart s ++ Text.replaceAll Text.dot Text.comma (fromDecimalPoint s).
Proof.
  induction s as [| c s IH]; [reflexivity |].
  cbn [integerPart fromDecimalPoint].
  unfold Text.replaceAll in *.
  destruct (Ascii.eqb c Text.dot) eqn:E; [reflexivity |].
  cbn [map app]. rewrite E. f_equal. exact IH.
Qed.

Lemma split_join (s : Text.text) :
  fst (Text.split Text.dot s) = integerPart s /\
  forall first,
    Text.join [Text.comma] (first :: snd (Text.split Text.dot s)) =
    first ++ Text.replaceAll Text.dot Text.comma (fromDecimalPoint s).
Proof.
  induction s as [| c s [IH1 IH2]].
  - split; [reflexivity |]. intros first. cbn. rewrite app_nil_r. reflexivity.
  - cbn [Text.split integerPart fromDecimalPoint].
    destruct (Text.split Text.dot s) as [f o]. cbn [fst snd] in *.
    destruct (Ascii.eqb c Text.dot) eqn:E; cbn [fst snd].
    + split; [reflexivity |]. intros first.
      change (Text.join [Text.comma] (first :: f :: o))
        with (first ++ [Text.comma] ++ Text.join [Text.comma] (f :: o)).
      rewrite (IH2 f), IH1, <- replaceAll_parts.
      unfold Text.replaceAll. cbn [map app]. rewrite E. reflexivity.
    + split; [rewrite IH1; reflexivity | exact IH2].
Qed.

(** The result of [formatWithCommas] in terms of the two parts. *)
Lemma formatWithCommas_split (num : Text.text) :
  Text.formatWithCommas num =
  Text.insertDots (integerPart num) ++
  Text.replaceAll Text.dot Text.comma (fromDecimalPoint num).
Proof.
  unfold Text.formatWithCommas.
  destruct (split_join num) as [H1 H2].
  destruct (Text.split Text.dot num) as [first others]. cbn [fst snd] in *.
  rewrite H2, H1. reflexivity.
Qed.

(** X18 -- [formatWithCommas]: the part before the first ['.'] receives the
    thousands separators, and from that ['.'] on every ['.'] becomes a [',']
    and nothing else changes: decimals are not grouped.  The two parts make
    up the argument, and the first has no ['.']. *)
Theorem formatWithCommas_parts (num : Text.text) :
  num = integerPart num ++ fromDecimalPoint num /\
  Text.removeAll Text.dot (integerPart num) = integerPart num /\
  Text.formatWithCommas num =
  Text.insertDots (integerPart num) ++
  Text.replaceAll Text.dot Text.comma (fromDecimalPoint num).
Proof.
  split; [| split; [| apply formatWithCommas_split]].
  - induction num as [| c num IH]; [reflexivity |].
    cbn [integerPart fromDecimalPoint].
    destruct (Ascii.eqb c Text.dot); [reflexivity |].
    cbn [app]. f_equal. exact IH.
  - unfold Text.removeAll.
    induction num as [| c num IH]; [reflexivity |].
    cbn [integerPart].
    destruct (Ascii.eqb c Text.dot) eqn:E; [reflexivity |].
    cbn [filter]. rewrite E. cbn [negb]. f_equal. exact IH.
Qed.

Lemma digits_have_no_point (s : Text.text) :
  Forall (fun c => Text.isDigit c = true) s ->
  integerPart s = s /\ fromDecimalPoint s = [] /\
  Text.replaceAll Text.comma Text.dot s = s.
Proof.
  induction 1 as [| c s Hc _ (IH1 & IH2 & IH3)]; [repeat split; reflexivity |].
  destruct (digit_not_separator c Hc) as [E1 E2].
  unfold Text.replaceAll in *. cbn [integerPart fromDecimalPoint map].
  rewrite E1, E2, IH1, IH2, IH3. repeat split; reflexivity.
Qed.

(** What [handleChange] keeps of the text of the event. *)
Lemma handleChange_digits (value : Text.text) :
  Text.removeAll Text.dot
    (Text.replaceAll Text.comma Text.dot
       (filter (fun c => Text.isDigit c || Ascii.eqb c Text.comma) value)) =
  Text.removeNonDigits value.
Proof.
  unfold Text.removeAll, Text.replaceAll, Text.removeNonDigits.
  induction value as [| c value IH]; [reflexivity |].
  cbn [filter]. destruct (Text.isDigit c) eqn:Hd.
  - destruct (digit_not_separator c Hd) as [E1 E2].
    cbn [orb map filter]. rewrite E2, E1. cbn [negb]. rewrite IH. reflexivity.
  - cbn [orb]. destruct (Ascii.eqb c Text.comma) eqn:E; [| exact IH].
    cbn [map filter]. rewrite E. cbn. exact IH.
Qed.

Variable parseFloat : Text.text -> float.

(** The two field types that are not percentages run the same code. *)
Lemma handleChange_amount (type : Text.FieldType) (value : Text.text) :
  type <> Text.Percentage ->
  Text.handleChange parseFloat type value =
  (Text.formatNumberWithDots value,
   JS.or (parseFloat (Text.removeNonDigits value)) 0).
Proof.
  intros Ht. unfold Text.handleChange. rewrite handleChange_digits.
  assert (Hf : Text.formatWithCommas (Text.removeNonDigits value) =
               Text.formatNumberWithDots value).
  { rewrite formatWithCommas_split.
    destruct (digits_have_no_point _ (removeNonDigits_are_digits value)) as (-> & -> & _).
    apply app_nil_r. }
  rewrite Hf. destruct type; [reflexivity | congruence | reflexivity].
Qed.

(** X19 -- [handleChange] of a currency or number field: the text put on
    display is that of [formatNumberWithDots] (the digits typed, grouped by
    thousands), the number handed on is parsed from those digits, which are
    the display without its dots, and handling the displayed text again
    gives the same display and the same number. *)
Theorem handleChange_amount_is_stable (type : Text.FieldType) (value : Text.text) :
  type <> Text.Percentage ->
  let shown := fst (Text.handleChange parseFloat type value) in
  shown = Text.formatNumberWithDots value /\
  snd (Text.handleChange parseFloat type value) =
    JS.or (parseFloat (Text.removeAll Text.dot shown)) 0 /\
  Text.handleChange parseFloat type shown = Text.handleChange parseFloat type value.
Proof.
  intros Ht shown. subst shown. rewrite !handleChange_amount by exact Ht.
  cbn [fst snd].
  destruct (formatNumberWithDots_stripped value) as [H1 H2].
  rewrite H1, H2. repeat split.
  unfold Text.formatNumberWithDots at 1. rewrite H2. reflexivity.
Qed.

Lemma removeNonDigits_without_commas (value : Text.text) :
  Text.removeNonDigits (Text.removeAll Text.comma value) = Text.removeNonDigits value.
Proof.
  unfold Text.removeNonDigits, Text.removeAll.
  induction value as [| c value IH]; [reflexivity |].
  cbn [filter]. destruct (Ascii.eqb_spec c Text.comma) as [-> | Hc].
  - cbn [negb]. rewrite IH. reflexivity.
  - cbn [negb filter]. rewrite IH. reflexivity.
Qed.

Lemma handleChange_percentage (value : Text.text) :
  Text.handleChange parseFloat Text.Percentage value =
  (Text.replaceAll Text.comma Text.dot
     (filter (fun c => Text.isDigit c || Ascii.eqb c Text.comma) value),
   (JS.or (parseFloat (Text.removeNonDigits value)) 0 / 100)%float).
Proof.
  unfold Text.handleChange. rewrite handleChange_digits.
  rewrite (proj2 (proj2 (digits_have_no_point _ (removeNonDigits_are_digits value)))).
  reflexivity.
Qed.

(** X20 -- [handleChange] of a percentage field: the display keeps the
    decimal separator that was typed (as a ['.']), but the number handed on
    is parsed from the digits alone, over 100: the separator is removed
    before parsing, so a text and the same text without its commas give the
    same number. *)
Theorem handleChange_percentage_drops_separator (value : Text.text) :
  fst (Text.handleChange parseFloat Text.Percentage value) =
    Text.replaceAll Text.comma Text.dot
      (filter (fun c => Text.isDigit c || Ascii.eqb c Text.comma) value) /\
  snd (Text.handleChange parseFloat Text.Percentage value) =
    (JS.or (parseFloat (Text.removeNonDigits value)) 0 / 100)%float /\
  snd (Text.handleChange parseFloat Text.Percentage value) =
    snd (Text.handleChange parseFloat Text.Percentage (Text.removeAll Text.comma value)).
Proof.
  rewrite !handleChange_percentage. cbn [fst snd].
  rewrite removeNonDigits_without_commas. repeat split; reflexivity.
Qed.

Variable toFixed1 : float -> Text.text.
Variable toString : float -> Text.text.

(** X21 -- [handleBlur] after [handleChange]: the text that replaces the
    display is computed from the number [numValue] that [handleChange]
    parsed from the digits typed, and from nothing else.  In a percentage
    field [numValue / 100] was handed on and the text is that of
    [numValue.toFixed(1)]; in the other fields [numValue] was handed on and
    the text is that of its rounding, with separators. *)
Theorem handleBlur_shows_number_handed_on (type : Text.FieldType) (value : Text.text) :
  let numValue := JS.or (parseFloat (Text.removeNonDigits value)) 0 in
  let shown := fst (Text.handleChange parseFloat type value) in
  snd (Text.handleChange parseFloat type value) =
    match type with
    | Text.Percentage => (numValue / 100)%float
    | _ => numValue
    end /\
  Text.handleBlur parseFloat toFixed1 toString type shown =
    match type with
    | Text.Percentage => toFixed1 numValue
    | _ => Text.formatWithCommas (toString (JS.Math_round numValue))
    end.
Proof.
  intros numValue shown. subst numValue shown.
  assert (Hclean : forall t,
    Text.replaceAll Text.comma Text.dot
      (Text.removeAll Text.dot (fst (Text.handleChange parseFloat t value))) =
    Text.removeNonDigits value).
  { intros t.
    assert (Hd : Text.removeAll Text.dot (fst (Text.handleChange parseFloat t value)) =
                 Text.removeNonDigits value).
    { destruct t.
      - rewrite handleChange_amount by discriminate.
        apply formatNumberWithDots_stripped.
      - rewrite handleChange_percentage. apply handleChange_digits.
      - rewrite handleChange_amount by discriminate.
        apply formatNumberWithDots_stripped. }
    rewrite Hd. apply digits_have_no_point, removeNonDigits_are_digits. }
  unfold Text.handleBlur. rewrite Hclean.
  destruct type;
    rewrite ?handleChange_percentage, ?handleChange_amount by discriminate;
    split; reflexivity.
Qed.

End TextFacts.

(** * Properties of the expenses calculator *)

Section EnoughMoneyFacts.

Local Open Scope float_scope.

(** [Math.max] against a bound that the other argument does not exceed. *)
Lemma Math_max_floor (bound x : float) :
  (x <=? bound) = true -> is_nan bound = false -> get_sign bound = false ->
  EnoughMoney.Math_max bound x = bound.
Proof.
  intros Hle Hb Hs. unfold EnoughMoney.Math_max.
  rewrite Hb, (FloatArith.leb_not_nan _ _ Hle), (FloatArith.leb_not_gt _ _ Hle), Hs.
  destruct (x <? bound); reflexivity.
Qed.

Lemma baseline_fold_not_nan (categories : list EnoughMoney.Category) :
  forall sum, is_nan sum = false ->
    is_nan
      (fold_left
         (fun sum cat =>
            sum + (if JS.isFinite (EnoughMoney.value cat)
                   then EnoughMoney.value cat else 0))
         categories sum) = false.
Proof.
  induction categories as [| cat categories IH]; intros sum Hsum; [exact Hsum |].
  cbn [fold_left]. apply IH. apply FloatArith.add_finite_not_nan; [exact Hsum |].
  unfold JS.isFinite.
  destruct (is_finite (EnoughMoney.value cat)) eqn:Hf; [exact Hf | reflexivity].
Qed.

(** X22 -- the expenses calculator: whatever the values of the categories,
    [NaN] and the infinities included, the baseline is never [NaN]. *)
Theorem baseline_is_a_number
    (categories : list EnoughMoney.Category) (bufferPercent multiplier : float) :
  is_nan (EnoughMoney.baseline (EnoughMoney.results categories bufferPercent multiplier))
  = false.
Proof.
  unfold EnoughMoney.results. cbn [EnoughMoney.baseline].
  apply baseline_fold_not_nan. reflexivity.
Qed.

(** X23 -- the expenses calculator: a buffer of 0 percent or less counts as
    no buffer, so [enough] is the baseline; a multiplier of 1 or less counts
    as 1, so [safe] is [enough]. *)
Theorem buffer_and_multiplier_floors
    (categories : list EnoughMoney.Category) (bufferPercent multiplier : float) :
  let r := EnoughMoney.results categories bufferPercent multiplier in
  ((bufferPercent <=? 0) = true -> EnoughMoney.enough r = EnoughMoney.baseline r) /\
  ((multiplier <=? 1) = true -> EnoughMoney.safe r = EnoughMoney.enough r).
Proof.
  intros r. subst r. unfold EnoughMoney.results.
  cbn [EnoughMoney.enough EnoughMoney.baseline EnoughMoney.safe]. split.
  - intros Hb. rewrite (Math_max_floor 0 bufferPercent Hb) by reflexivity.
    change (1 + 0 / 100) with 1. apply FloatArith.mul_one.
  - intros Hm. rewrite (Math_max_floor 1 multiplier Hm) by reflexivity.
    apply FloatArith.mul_one.
Qed.

Variable parseFloat : Text.text -> float.

Lemma or_zero_not_nan (x : float) : is_nan (JS.or x 0) = false.
Proof.
  unfold JS.or, JS.truthy.
  destruct (is_zero x); [reflexivity |]. destruct (is_nan x) eqn:Hn; [reflexivity |].
  exact Hn.
Qed.

Lemma text_eqb_spec (a b : Text.text) : Text.eqb a b = true <-> a = b.
Proof.
  unfold Text.eqb. destruct (list_eq_dec Ascii.ascii_dec a b); split; congruence.
Qed.

(** X24 -- [handleCategoryChange]: the categories keep their keys, labels and
    order; those with the key edited receive the number parsed from the
    digits typed (0 when that is 0 or [NaN], so never [NaN]) and the others
    are left as they are; the text stored for the key is the digits grouped
    by thousands, and without its dots it is the text that was parsed; the
    texts of the other keys are not touched. *)
Theorem handleCategoryChange_updates_one_key
    (key0 rawValue : Text.text)
    (categoryInputs : Text.text -> option Text.text)
    (categories : list EnoughMoney.Category) :
  let digits := Text.removeNonDigits rawValue in
  let numericValue := JS.or (parseFloat digits) 0 in
  let inputs' :=
    fst (EnoughMoney.handleCategoryChange parseFloat key0 rawValue categoryInputs categories) in
  let categories' :=
    snd (EnoughMoney.handleCategoryChange parseFloat key0 rawValue categoryInputs categories) in
  map EnoughMoney.key categories' = map EnoughMoney.key categories /\
  map EnoughMoney.label categories' = map EnoughMoney.label categories /\
  map EnoughMoney.value categories' =
    map (fun cat => if Text.eqb (EnoughMoney.key cat) key0
                    then numericValue else EnoughMoney.value cat) categories /\
  is_nan numericValue = false /\
  inputs' key0 = Some (Text.formatNumberWithDots rawValue) /\
  Text.removeAll Text.dot (Text.formatNumberWithDots rawValue) = digits /\
  (forall k, k <> key0 -> inputs' k = categoryInputs k).
Proof.
  intros digits numericValue inputs' categories'.
  subst inputs' categories' numericValue digits.
  unfold EnoughMoney.handleCategoryChange. cbn [fst snd].
  rewrite !map_map.
  repeat split.
  - apply map_ext. intros cat. destruct (Text.eqb _ _); reflexivity.
  - apply map_ext. intros cat. destruct (Text.eqb _ _); reflexivity.
  - apply map_ext. intros cat. destruct (Text.eqb _ _); reflexivity.
  - apply or_zero_not_nan.
  - replace (Text.eqb key0 key0) with true
      by (symmetry; apply text_eqb_spec; reflexivity).
    unfold Text.formatNumberWithDots. rewrite removeNonDigits_idem. reflexivity.
  - apply formatNumberWithDots_stripped.
  - intros k Hk. destruct (Text.eqb k key0) eqn:E; [| reflexivity].
    apply text_eqb_spec in E. congruence.
Qed.

End EnoughMoneyFacts.

(** ** The hypotheses of the further properties are met *)

Section Witnesses.

Import String.

Local Open Scope float_scope.

(** X1 at [thirteenMonthInputs]: the crossing is at month 13. *)
Lemma contribution_result_is_a_crossing_witness :
  let r := calculateFinancialIndependence unspecified_pow thirteenMonthInputs
             ContributionBased in
  exists n,
    (0 <= n <= 1200)%Z /\
    totalMonthsToFI r = JS.of_Z n /\
    yearsToFI r = JS.of_Z (n / 12) /\
    monthsToFI r = JS.of_Z (n mod 12) /\
    targetReached unspecified_pow thirteenMonthInputs n = true /\
    (n = 0%Z \/ targetReached unspecified_pow thirteenMonthInputs (n - 1) = false) /\
    futureValueOfCurrentSavings r =
      total (projectPortfolio unspecified_pow thirteenMonthInputs n) /\
    inflationAdjustedFINumber r =
      target (projectPortfolio unspecified_pow thirteenMonthInputs n) /\
    JS.ge (futureValueOfCurrentSavings r) (inflationAdjustedFINumber r) = true.
Proof.
  apply (contribution_result_is_a_crossing unspecified_pow thirteenMonthInputs).
  vm_compute. reflexivity.
Defined.

(** X2 at [thirteenMonthInputs]: 1200 saved by month 1200 against 13. *)
Lemma contribution_reports_reachable_target_witness :
  JS.isFinite
    (totalMonthsToFI
       (calculateFinancialIndependence unspecified_pow thirteenMonthInputs
          ContributionBased)) = true.
Proof.
  apply (contribution_reports_reachable_target unspecified_pow thirteenMonthInputs).
  vm_compute. reflexivity.
Defined.

(** X3 for savings of 0, 1 a month, a target of 13 and a rate of 0. *)
Lemma timeline_to_fi_is_bounded_witness :
  let reached := timelineReached unspecified_pow 0 1 13 (0 / 12) in
  let t := calculateTimelineToFI unspecified_pow unspecified_log 0 1 13 0 in
  JS.isFinite (totalMonths t) = true /\
  (exists n, (0 <= n <= 1200)%Z /\ totalMonths t = JS.of_Z n /\
             years t = JS.of_Z (n / 12) /\ months t = JS.of_Z (n mod 12)) /\
  ((forall m, (0 <= m <= 1200)%Z -> reached m = false) ->
   t = {| years := 100; months := 0; totalMonths := 1200 |}).
Proof.
  apply (timeline_to_fi_is_bounded unspecified_pow unspecified_log 0 1 13 0).
  reflexivity.
Defined.

(** X4 for savings of 1000000 against a target of 1: 100 years all the
    same. *)
Lemma timeline_to_fi_zero_rate_witness :
  calculateTimelineToFI unspecified_pow unspecified_log 1000000 1 1 0 =
  {| years := 100; months := 0; totalMonths := 1200 |}.
Proof.
  apply (timeline_to_fi_zero_rate unspecified_pow unspecified_log 1000000 1 1 0);
    reflexivity.
Defined.

(** X5 at an annual rate of -1200%, where [Math.pow] has a base of 0: the
    projection is 0 at month 0 and 5 from month 1 on, against a target
    of 3. *)
Lemma timeline_to_fi_least_month_witness :
  let reached := timelineReached unspecified_pow 0 5 3 (-12 / 12) in
  let t := calculateTimelineToFI unspecified_pow unspecified_log 0 5 3 (-12) in
  exists n,
    (0 <= n <= 1200)%Z /\ reached n = true /\
    (forall m, (0 <= m < n)%Z -> reached m = false) /\
    t = {| years := JS.of_Z (n / 12); months := JS.of_Z (n mod 12);
           totalMonths := JS.of_Z n |}.
Proof.
  assert (Hall : forall m, (0 <= m <= 1200)%Z ->
            timelineReached unspecified_pow 0 5 3 (-12 / 12) m = (1 <=? m)%Z).
  { intros m Hm.
    apply (forallb_months
      (fun m => Bool.eqb (timelineReached unspecified_pow 0 5 3 (-12 / 12) m)
                  (1 <=? m)%Z))
      in Hm; [| vm_compute; reflexivity].
    apply Bool.eqb_prop in Hm. exact Hm. }
  apply (timeline_to_fi_least_month unspecified_pow unspecified_log 0 5 3 (-12)).
  - reflexivity.
  - intros m m' H0 Hle H1200 Hr.
    rewrite Hall in * by lia. apply Z.leb_le. apply Z.leb_le in Hr. lia.
  - exists 1%Z. split; [lia | vm_compute; reflexivity].
Defined.

(** X6 for savings of 20 against a target of 13. *)
Lemma required_savings_zero_when_funded_witness :
  calculateRequiredMonthlySavings unspecified_pow 13 20 0 1 = 0.
Proof.
  apply (required_savings_zero_when_funded unspecified_pow 13 20 0 1);
    vm_compute; reflexivity.
Defined.

(** X7 for a target of 1200 in one year: 100 a month. *)
Lemma required_savings_zero_rate_witness :
  calculateRequiredMonthlySavings unspecified_pow 1200 0 0 1 = 100.
Proof.
  apply (required_savings_zero_rate unspecified_pow 1200 0 0 1); reflexivity.
Defined.

(** X8 for 1000 at 7% over zero years. *)
Lemma compounding_leaves_amount_witness :
  calculateFutureValue unspecified_pow 1000 0.07 0 = 1000 /\
  calculateInflationAdjustedAmount unspecified_pow 1000 0.07 0 = 1000.
Proof.
  apply (compounding_leaves_amount unspecified_pow 1000 0.07 0).
  left. reflexivity.
Defined.

(** X9 at [spendingInputs]: 500 against an inflated target of 300. *)
Lemma time_based_without_gap_witness :
  let r := calculateFinancialIndependence unspecified_pow spendingInputs TimeBased in
  requiredMonthlySavings r = 0 /\
  suggestedMonthlySavings r = Some 0 /\
  suggestedMonthlyInvestment r = Some 0 /\
  totalFutureSavings r = Some 500 /\
  totalFutureInvestment r = Some 0 /\
  yearsToFI r = 2 /\
  totalMonthsToFI r = 24.
Proof.
  apply (time_based_without_gap unspecified_pow spendingInputs);
    vm_compute; reflexivity.
Defined.

(** X10 at [zeroHorizonInputs]. *)
Lemma goal_based_zero_horizon_witness :
  let r := calculateFinancialIndependence unspecified_pow zeroHorizonInputs GoalBased in
  requiredMonthlySavings r = infinity /\
  totalFutureSavings r = Some nan /\
  totalFutureInvestment r = Some nan /\
  yearsToFI r = 0 /\
  totalMonthsToFI r = 0.
Proof.
  apply (goal_based_zero_horizon unspecified_pow zeroHorizonInputs);
    vm_compute; reflexivity.
Defined.


(** X12 at [spendingInputs]: samples for the years 0, 1, 2, the line at 300. *)
Lemma time_based_reference_line_witness :
  let r := calculateFinancialIndependence unspecified_pow spendingInputs TimeBased in
  let samples := generateTimelineData unspecified_pow spendingInputs TimeBased (Some r) in
  exists p,
    nth_error samples 2 = Some p /\
    List.length samples = 3%nat /\
    year p = 2%Z /\
    (JS.truthy (chartTarget p) = true ->
     Display.targetValue spendingInputs TimeBased (Some r) = chartTarget p).
Proof.
  apply (time_based_reference_line unspecified_pow spendingInputs).
  cbn [timeHorizon spendingInputs]. lia.
Defined.

(** X13 at [idleInputs]. *)
Lemma unreached_result_display_witness :
  let r := calculateFinancialIndependence unspecified_pow idleInputs ContributionBased in
  Display.timelineText wholeNumberText r = Display.notReached /\
  Display.yearsLabelText wholeNumberText r = Text.lit "N/A".
Proof.
  apply (unreached_result_display unspecified_pow wholeNumberText idleInputs).
  vm_compute. reflexivity.
Defined.


(** X15 at [thirteenMonthInputs]: 13 months read "1 năm và 1 tháng". *)
Lemma contribution_duration_display_witness :
  let r := calculateFinancialIndependence unspecified_pow thirteenMonthInputs
             ContributionBased in
  exists n,
    (0 <= n <= 1200)%Z /\
    totalMonthsToFI r = JS.of_Z n /\
    Display.timelineText wholeNumberText r =
    (let y := wholeNumberText (JS.of_Z (n / 12)) ++ Text.lit " năm" in
     let m := wholeNumberText (JS.of_Z (n mod 12)) ++ Text.lit " tháng" in
     if (n =? 0)%Z then Display.achieved
     else if (n <? 12)%Z then m
     else if (n mod 12 =? 0)%Z then y
     else y ++ Text.lit " và " ++ m) /\
    Display.timelineText wholeNumberText r = Text.lit "1 năm và 1 tháng".
Proof.
  destruct (contribution_duration_display unspecified_pow wholeNumberText
              thirteenMonthInputs) as (n & Hn & Ht & Htext);
    [vm_compute; reflexivity |].
  exists n. repeat split; try lia; auto.
Defined.

(** X19 for a currency field and the text "1234567 đ": shown as
    "1.234.567". *)
Lemma handleChange_amount_is_stable_witness :
  let shown :=
    fst (Text.handleChange unspecified_parse Text.Currency (Text.lit "1234567 đ")) in
  shown = Text.lit "1.234.567" /\
  snd (Text.handleChange unspecified_parse Text.Currency (Text.lit "1234567 đ")) =
    JS.or (unspecified_parse (Text.removeAll Text.dot shown)) 0 /\
  Text.handleChange unspecified_parse Text.Currency shown =
    Text.handleChange unspecified_parse Text.Currency (Text.lit "1234567 đ").
Proof.
  apply (handleChange_amount_is_stable unspecified_parse Text.Currency
           (Text.lit "1234567 đ")).
  discriminate.
Defined.

(** X23 for a buffer of -5 percent and a multiplier of 0.5. *)
Lemma buffer_and_multiplier_floors_witness :
  let r :=
    EnoughMoney.results
      [{| EnoughMoney.key := Text.lit "housing"; EnoughMoney.label := Text.lit "Nhà ở";
          EnoughMoney.value := 6000000 |}] (-5) 0.5 in
  EnoughMoney.enough r = 6000000 /\ EnoughMoney.safe r = 6000000.
Proof.
  split.
  - apply (proj1 (buffer_and_multiplier_floors
                    [{| EnoughMoney.key := Text.lit "housing";
                        EnoughMoney.label := Text.lit "Nhà ở";
                        EnoughMoney.value := 6000000 |}] (-5) 0.5)).
    reflexivity.
  - rewrite (proj2 (buffer_and_multiplier_floors
                      [{| EnoughMoney.key := Text.lit "housing";
                          EnoughMoney.label := Text.lit "Nhà ở";
                          EnoughMoney.value := 6000000 |}] (-5) 0.5))
      by reflexivity.
    reflexivity.
Defined.

End Witnesses.
